(** * Candlestick outlier correction of the Binance API server

    A shallow embedding of [getCandlesticks] (src/binance_server.js, lines
    85-172): the parsing pass, [detectOutliers] (median and median absolute
    deviation of the typical prices), the replacement loop and the final
    projection that drops the [original] flag, together with the [try]/[catch]
    wrapper that turns a failure into an HTTP 500 answer.

    JavaScript numbers are IEEE 754 binary64 values.  The embedding is written
    once over an interface [Number] of the arithmetic the source uses, with
    two instances: [Binary64] (Rocq's primitive floats, the arithmetic node.js
    runs) and [Rational] (exact arithmetic, no rounding and no NaN).  The
    theorems that only follow the control and data flow are proved for an
    arbitrary [Number].  The theorem on the order of the sorted arrays needs
    the comparator to agree with [<] ([OrderLaws]); both instances have these
    laws, binary64 on all numbers but NaN.  The theorem on a zero deviation is
    proved on binary64 itself.

    The second part embeds the rest of the server: the credentials chosen
    from the environment (src/config/keys.js and [binanceConfig]), the
    controller's [getCandlesticks] without the outlier pass
    (src/unnamed/part_000), [formatCandles], [getPrice], and the two
    real-time handlers with the [activeConnections] map they share and the
    web-socket callbacks that write to it. *)

From Stdlib Require Import List ZArith QArith Qabs Floats String Bool Lia.
From Stdlib Require Import Permutation Sorted Ascii.
Import ListNotations.

Close Scope Q_scope.
Open Scope nat_scope.

(** ** Numbers *)

(** The operations and literals on numbers that [getCandlesticks] uses.
    [nlt a b] is [a < b]; the source's [a > b] is [nlt b a] (both are false
    as soon as one side is NaN). *)
Class Number : Type := {
  num : Type;
  nadd : num -> num -> num;
  nsub : num -> num -> num;
  nmul : num -> num -> num;
  ndiv : num -> num -> num;
  nabs : num -> num;                      (* Math.abs *)
  nlt : num -> num -> bool;
  lit_0 : num;
  lit_3 : num;
  lit_5 : num;
  lit_1_4826 : num
}.

Declare Scope js_scope.
Delimit Scope js_scope with js.
Notation "a + b" := (nadd a b) : js_scope.
Notation "a - b" := (nsub a b) : js_scope.
Notation "a * b" := (nmul a b) : js_scope.
Notation "a / b" := (ndiv a b) : js_scope.
Notation "a <? b" := (nlt a b) : js_scope.
Notation "a >? b" := (nlt b a) (only parsing) : js_scope.

(** binary64, as node.js computes.  [1.4826] is not a binary64 value; the
    literal denotes the nearest one, written here in hexadecimal. *)
#[export] Instance Binary64 : Number := {|
  num := float;
  nadd := PrimFloat.add;
  nsub := PrimFloat.sub;
  nmul := PrimFloat.mul;
  ndiv := PrimFloat.div;
  nabs := PrimFloat.abs;
  nlt := PrimFloat.ltb;
  lit_0 := 0%float;
  lit_3 := 3%float;
  lit_5 := 5%float;
  lit_1_4826 := 0x1.7b8bac710cb29p+0%float
|}.

Definition Qltb (a b : Q) : bool := negb (Qle_bool b a).

(** Exact rational arithmetic. *)
#[export] Instance Rational : Number := {|
  num := Q;
  nadd := Qplus;
  nsub := Qminus;
  nmul := Qmult;
  ndiv := Qdiv;
  nabs := Qabs;
  nlt := Qltb;
  lit_0 := 0%Q;
  lit_3 := 3%Q;
  lit_5 := 5%Q;
  lit_1_4826 := (14826 # 10000)%Q
|}.

(** The facts of arithmetic that make "sorted ascending" meaningful: the
    comparator [(a, b) => a - b] is positive exactly when [b < a], [<] is
    asymmetric, and [<=] (that is, not [>]) is transitive through every
    [comparable] number.  In binary64 the comparable numbers are all but NaN
    ([Binary64_order] below); in exact arithmetic every number is
    ([Rational_order]). *)
Class OrderLaws (N : Number) : Type := {
  comparable : num -> Prop;
  compare_by_difference : forall a b : num, nlt lit_0 (nsub a b) = nlt b a;
  nlt_asym : forall a b : num, nlt a b = true -> nlt b a = false;
  nle_trans : forall a b c : num,
      comparable b -> nlt b a = false -> nlt c b = false -> nlt c a = false
}.

(** ** Exceptions *)

(** The result of a computation that may throw.  A [catch] block of this
    server reads [error.message] of what was thrown and nothing else, so a
    thrown value is told by what that reads:
    - a string: the value is an [Error], or any object whose [message] is a
      string ([Throw]);
    - [undefined]: the value is neither [null] nor [undefined] and has no
      [message], as a string, a number or a plain object that a promise was
      rejected with ([ThrowWithoutMessage]);
    - nothing: the value is [null] or [undefined], and reading its [message]
      throws a [TypeError] inside the [catch] block ([ThrowNullish]).
    A [message] that is neither a string nor [undefined] is left out. *)
Inductive Outcome (A : Type) : Type :=
| Return (a : A)
| Throw (message : string)
| ThrowWithoutMessage
| ThrowNullish.
Arguments Return {A} a.
Arguments Throw {A} message.
Arguments ThrowWithoutMessage {A}.
Arguments ThrowNullish {A}.

Definition bind {A B : Type} (m : Outcome A) (k : A -> Outcome B)
  : Outcome B :=
  match m with
  | Return a => k a
  | Throw message => Throw message
  | ThrowWithoutMessage => ThrowWithoutMessage
  | ThrowNullish => ThrowNullish
  end.

(** ** Dates *)

(** A [Date] by its time value, in milliseconds since the epoch.
    [new Date(value)] on a number keeps the number when it is no further
    than 8.64e15 from zero; beyond that the date is invalid. *)
Inductive Date : Type :=
| ValidDate (ms : Z)
| InvalidDate.

Definition newDate (value : Z) : Date :=
  if (Z.abs value <=? 8640000000000000)%Z then ValidDate value
  else InvalidDate.

(** ** Data *)

Section Sanitizer.

Context {N : Number}.
Local Open Scope js_scope.

(** The six fields of a candle as the server answers it. *)
Record Candle : Type := mkCandle {
  time : Date;
  open : num;
  high : num;
  low : num;
  close : num;
  volume : num
}.

(** An element of [formatted] and of [cleanedCandles]: the six fields and
    the [original] flag. *)
Record Formatted : Type := mkFormatted {
  candle : Candle;
  original : bool
}.

(** What [detectOutliers] returns. *)
Record Stats : Type := mkStats {
  median : num;
  mad : num;
  threshold : num;
  lowerThreshold : num
}.

(** ** [Array.prototype.sort] with a comparator

    ECMAScript specifies a stable sort: [comparefn x y > 0] puts [y] first,
    anything else (negative, zero, NaN) keeps [x] before [y].  Insertion from
    the right is such a sort.  When the comparator is consistent (for
    [(a, b) => a - b]: no NaN in the array) the result is the one every
    engine returns.  Otherwise ECMAScript leaves the order to the engine, and
    node's order (binary insertion into a first run, then merges) is not
    always the one of this definition; the statements on the order of the
    sorted arrays are made for arrays without NaN, and of an array with NaN
    the only fact used is that the result rearranges it ([sort_perm]).  On
    the arrays of [nan_window] node's sort and this one agree: both find
    one ascending run and leave the array as it is. *)
Fixpoint insert (comparefn : num -> num -> num) (x : num) (l : list num)
  : list num :=
  match l with
  | [] => [x]
  | y :: l' =>
      if comparefn x y >? lit_0 then y :: insert comparefn x l' else x :: l
  end.

Definition sort (comparefn : num -> num -> num) (l : list num) : list num :=
  fold_right (insert comparefn) [] l.

(** ** [detectOutliers] (lines 110-130)

    An array read out of range is [undefined] in JavaScript; it is [None]
    here.  Both reads are in range unless the array is empty, in which case
    the source ends with [NaN] thresholds: the result [None] stands for
    them. *)
Definition typicalPrice (c : Formatted) : num :=
  (high (candle c) + low (candle c) + close (candle c)) / lit_3.

Definition detectOutliers (candles : list Formatted) : option Stats :=
  let multiplier := lit_5 in
  let typicalPrices := map typicalPrice candles in
  let sorted := sort (fun a b => a - b) typicalPrices in
  match nth_error sorted (Nat.div (List.length sorted) 2) with
  | None => None
  | Some median =>
      let deviations := map (fun p => nabs (p - median)) sorted in
      let deviations := sort (fun a b => a - b) deviations in
      match nth_error deviations (Nat.div (List.length deviations) 2) with
      | None => None
      | Some mad =>
          let threshold := median + (multiplier * lit_1_4826 * mad) in
          let lowerThreshold := median - (multiplier * lit_1_4826 * mad) in
          Some (mkStats median mad threshold lowerThreshold)
      end
  end.

(** ** The replacement loop (lines 135-159) *)

(** [isOutlierHigh || isOutlierLow] of lines 143-147.  Against NaN
    thresholds every comparison is false. *)
Definition isOutlier (stats : option Stats) (current : Formatted) : bool :=
  match stats with
  | None => false
  | Some s =>
      let isOutlierHigh :=
        (high (candle current) >? threshold s)
        || (high (candle current) <? lowerThreshold s) in
      let isOutlierLow :=
        (low (candle current) >? threshold s)
        || (low (candle current) <? lowerThreshold s) in
      isOutlierHigh || isOutlierLow
  end.

(** The object literal of lines 148-153: the previous candle's fields with
    [time], [volume] and [original] overridden. *)
Definition corrected (previousValidCandle current : Formatted) : Formatted :=
  let p := candle previousValidCandle in
  {| candle := {| time := time (candle current);
                  open := open p;
                  high := high p;
                  low := low p;
                  close := close p;
                  volume := volume (candle current) |};
     original := false |}.

(** The two variables the loop updates. *)
Record LoopState : Type := mkLoopState {
  cleanedCandles : list Formatted;
  previousValidCandle : option Formatted
}.

Definition initialState : LoopState :=
  {| cleanedCandles := []; previousValidCandle := None |}.

(** One iteration of the [for] loop on [current = formatted[i]]. *)
Definition loopBody (stats : option Stats) (st : LoopState)
    (current : Formatted) : LoopState :=
  match previousValidCandle st with
  | Some previous =>
      if isOutlier stats current then
        {| cleanedCandles := cleanedCandles st ++ [corrected previous current];
           previousValidCandle := Some previous |}
      else
        {| cleanedCandles := cleanedCandles st ++ [current];
           previousValidCandle := Some current |}
  | None =>
      {| cleanedCandles := cleanedCandles st ++ [current];
         previousValidCandle := Some current |}
  end.

Definition loop (stats : option Stats) (formatted : list Formatted)
  : LoopState :=
  fold_left (loopBody stats) formatted initialState.

(** The state of the loop of [getCandlesticks] on [formatted] once the
    first [k] candles have been processed. *)
Definition stateAfter (formatted : list Formatted) (k : nat) : LoopState :=
  loop (detectOutliers formatted) (firstn k formatted).

(** Lines 133-162: statistics, loop, and the final [map] that drops
    [original].  This is the operation the specification calls [sanitize]. *)
Definition sanitize (formatted : list Formatted) : list Candle :=
  let stats := detectOutliers formatted in
  let st := loop stats formatted in
  let finalCandles := map candle (cleanedCandles st) in
  finalCandles.

(** A candle of the input is flagged when the loop's test holds for it with
    the thresholds of the whole input. *)
Definition flagged (formatted : list Formatted) (c : Formatted) : bool :=
  isOutlier (detectOutliers formatted) c.

(** [candleToAdd] at the end of an iteration, from [previousValidCandle] at
    its start. *)
Definition candleToAdd (stats : option Stats) (previous : option Formatted)
    (current : Formatted) : Formatted :=
  match previous with
  | Some p => if isOutlier stats current then corrected p current else current
  | None => current
  end.

(** [previousValidCandle] at the end of an iteration. *)
Definition nextValidCandle (stats : option Stats)
    (previous : option Formatted) (current : Formatted)
  : option Formatted :=
  match previous with
  | Some p => if isOutlier stats current then Some p else Some current
  | None => Some current
  end.

(** ** The vocabulary of the specification *)

(** [a <= b], as [!(b < a)]. *)
Definition nle (a b : num) : Prop := nlt b a = false.

(** The specification's "low-median" of a series, in its own words: the
    element at index [floor(n/2)] of the series sorted ascending. *)
Definition low_median_of (series : list num) (m : num) : Prop :=
  exists sorted,
    Permutation sorted series
    /\ StronglySorted nle sorted
    /\ nth_error sorted (Nat.div (List.length series) 2) = Some m.

(** The behaviour C1 describes, read as a property of one input: a flagged
    candle with only flagged candles before it is emitted unchanged and is
    not stored in [previousValidCandle]. *)
Definition leading_outliers_pass_through (formatted : list Formatted)
  : Prop :=
  forall k c,
    nth_error formatted k = Some c ->
    (forall j cj, j <= k -> nth_error formatted j = Some cj ->
                  flagged formatted cj = true) ->
    nth_error (sanitize formatted) k = Some (candle c)
    /\ previousValidCandle (stateAfter formatted (S k)) = None.

(** ** The handler (lines 85-172) *)

(** A candle as the provider delivers it. *)
Record RawCandle : Type := mkRawCandle {
  raw_openTime : Z;
  raw_open : string;
  raw_high : string;
  raw_low : string;
  raw_close : string;
  raw_volume : string
}.

(** The JSON bodies the handler sends: an array of candles, or an object
    with the fields [error] and [details], where a field whose value is
    [undefined] is [None] ([JSON.stringify] leaves it out).  [NotSent] is the
    body of a response that is never sent. *)
Inductive Json : Type :=
| JsonCandles (candles : list Candle)
| JsonError (error : option string) (details : option string)
| NotSent.

Record Response : Type := mkResponse {
  status : Z;
  body : Json
}.

(** The [catch] block's answer to an error with a message. *)
Definition failure (message : string) : Response :=
  {| status := 500%Z;
     body := JsonError (Some message)
               (Some "Failed to fetch candle data from Binance API"%string) |}.

Variable parseFloat : string -> num.

(** Lines 99-107. *)
Definition format (c : RawCandle) : Formatted :=
  {| candle := {| time := newDate (raw_openTime c);
                  open := parseFloat (raw_open c);
                  high := parseFloat (raw_high c);
                  low := parseFloat (raw_low c);
                  close := parseFloat (raw_close c);
                  volume := parseFloat (raw_volume c) |};
     original := true |}.

(** The [try] block.  [awaited] is the outcome of
    [await binanceClient.candlesticks(...)]: the provider's rejection, or
    its value, which is [None] when it is [null] or [undefined]. *)
Definition tryBlock (awaited : Outcome (option (list RawCandle)))
  : Outcome (list Candle) :=
  bind awaited (fun candles =>
    match candles with
    | None | Some [] => Throw "No candle data received from Binance"%string
    | Some candles =>
        let formatted := map format candles in
        Return (sanitize formatted)
    end).

(** [getCandlesticks]: [res.json] answers with status 200, the [catch]
    block with status 500.  In [res.status(500).json({ error: error.message,
    ... })] the call [res.status(500)] comes before the argument is
    evaluated: when reading [error.message] throws, the status is set and
    nothing is sent. *)
Definition getCandlesticks (awaited : Outcome (option (list RawCandle)))
  : Response :=
  match tryBlock awaited with
  | Return finalCandles =>
      {| status := 200%Z; body := JsonCandles finalCandles |}
  | Throw message =>
      {| status := 500%Z;
         body := JsonError (Some message)
                   (Some "Failed to fetch candle data from Binance API"%string) |}
  | ThrowWithoutMessage =>
      {| status := 500%Z;
         body := JsonError None
                   (Some "Failed to fetch candle data from Binance API"%string) |}
  | ThrowNullish =>
      {| status := 500%Z; body := NotSent |}
  end.

(** The sentence of C8 on failures, read as a property of the handler:
    whatever the provider call gives, the answer is the candles, or has a
    status from 500 to 599 and a body with an [error] string. *)
Definition failures_are_reported : Prop :=
  forall awaited : Outcome (option (list RawCandle)),
    (exists candles,
       body (getCandlesticks awaited) = JsonCandles candles)
    \/ ((500 <= status (getCandlesticks awaited) <= 599)%Z
        /\ exists error details,
             body (getCandlesticks awaited) = JsonError (Some error) details).

End Sanitizer.

(** * Sample windows (binary64) *)

Definition bar (t : Z) (o h l c v : float) : @Formatted Binary64 :=
  @mkFormatted Binary64 (@mkCandle Binary64 (ValidDate t) o h l c v) true.

(** The scenario of the specification: typical prices 100, 101, 99, 102 and
    5000. *)
Definition spike_window : list (@Formatted Binary64) :=
  [ bar 1000 100 101 99 100 10;
    bar 2000 101 102 100 101 20;
    bar 3000 99 100 98 99 30;
    bar 4000 102 103 101 102 40;
    bar 5000 5000 5001 4999 5000 50 ]%float.

(** A window that starts with two spikes: typical prices 5000, 6000, 100,
    101 and 99. *)
Definition leading_spikes : list (@Formatted Binary64) :=
  [ bar 1000 5000 5001 4999 5000 10;
    bar 2000 6000 6001 5999 6000 20;
    bar 3000 100 101 99 100 30;
    bar 4000 101 102 100 101 40;
    bar 5000 99 100 98 99 50 ]%float.

(** A window without outliers. *)
Definition calm_window : list (@Formatted Binary64) :=
  [ bar 1000 100 101 99 100 10;
    bar 2000 101 102 100 101 20;
    bar 3000 99 100 98 99 30;
    bar 4000 102 103 101 102 40 ]%float.

(** A window whose typical prices are all 100 but for one candle whose
    high reaches 100.5: the median absolute deviation is 0. *)
Definition flat_window : list (@Formatted Binary64) :=
  [ bar 1000 100 100 100 100 10;
    bar 2000 100 100 100 100 20;
    bar 3000 100 100.5 100 100 30;
    bar 4000 100 100 100 100 40;
    bar 5000 100 100 100 100 50 ]%float.

(** A window with a candle whose high is NaN, as [parseFloat] gives for a
    string that is not a numeral: typical prices 5, NaN, 2 and 5. *)
Definition nan_window : list (@Formatted Binary64) :=
  [ bar 1000 5 5 5 5 10;
    bar 2000 5 nan 5 5 20;
    bar 3000 2 2 2 2 30;
    bar 4000 5 5 5 5 40 ]%float.

(** ** Sample window (exact arithmetic) *)

Definition exact_bar (t : Z) (o h l c v : Q) : @Formatted Rational :=
  @mkFormatted Rational (@mkCandle Rational (ValidDate t) o h l c v) true.

(** [spike_window] in exact arithmetic. *)
Definition exact_spike_window : list (@Formatted Rational) :=
  [ exact_bar 1000 100 101 99 100 10;
    exact_bar 2000 101 102 100 101 20;
    exact_bar 3000 99 100 98 99 30;
    exact_bar 4000 102 103 101 102 40;
    exact_bar 5000 5000 5001 4999 5000 50 ]%Q.

(** ** Values of binary64 *)

(** Two values that every comparison treats alike: the same value, or two
    zeros of any signs. *)
Definition same_value (x y : spec_float) : Prop :=
  x = y \/ exists a b, x = S754_zero a /\ y = S754_zero b.

(** [x == x], which only NaN fails. *)
Definition not_nan (x : float) : Prop := PrimFloat.eqb x x = true.

(** The place of a value in the order of binary64, as a triple compared
    lexicographically: the sign class, then the exponent and the mantissa
    (negated below zero).  NaN has no place; it is given that of zero. *)
Definition rank (x : spec_float) : Z * Z * Z :=
  match x with
  | S754_infinity true => (-2, 0, 0)
  | S754_finite true m e => (-1, - e, - Zpos m)
  | S754_zero _ => (0, 0, 0)
  | S754_nan => (0, 0, 0)
  | S754_finite false m e => (1, e, Zpos m)
  | S754_infinity false => (2, 0, 0)
  end%Z.

Definition lexlt (k1 k2 : Z * Z * Z) : Prop :=
  let '(a1, b1, c1) := k1 in
  let '(a2, b2, c2) := k2 in
  (a1 < a2 \/ (a1 = a2 /\ (b1 < b2 \/ (b1 = b2 /\ c1 < c2))))%Z.

(** * The other handlers *)

(** ** The client configuration (src/config/keys.js; binance_server.js,
       lines 19-41) *)

(** [process.env]: a variable is a string or is not set. *)
Definition Env : Type := string -> option string.

(** [value === 'literal'] on a value that is a string or [undefined]. *)
Definition strictEquals (value : option string) (literal : string) : bool :=
  match value with
  | Some s => String.eqb s literal
  | None => false
  end.

Record Credentials : Type := mkCredentials {
  apiKey : option string;
  apiSecret : option string;
  testnet : bool
}.

(** [module.exports.binance] of src/config/keys.js. *)
Definition keys_binance (env : Env) : Credentials :=
  let isTestnet := strictEquals (env "BINANCE_TESTNET"%string) "true" in
  {| apiKey := if isTestnet then env "BINANCE_TESTNET_API_KEY"%string
               else env "BINANCE_API_KEY"%string;
     apiSecret := if isTestnet then env "BINANCE_TESTNET_API_SECRET"%string
                  else env "BINANCE_API_SECRET"%string;
     testnet := isTestnet |}.

(** [binanceConfig] of src/binance_server.js. *)
Definition binanceConfig (env : Env) : Credentials :=
  {| apiKey := if strictEquals (env "BINANCE_TESTNET"%string) "true"
               then env "BINANCE_TESTNET_API_KEY"%string
               else env "BINANCE_API_KEY"%string;
     apiSecret := if strictEquals (env "BINANCE_TESTNET"%string) "true"
                  then env "BINANCE_TESTNET_API_SECRET"%string
                  else env "BINANCE_API_SECRET"%string;
     testnet := strictEquals (env "BINANCE_TESTNET"%string) "true" |}.

Record Urls : Type := mkUrls {
  base : string;
  stream : string;
  combinedStream : string
}.

(** The argument of [new Binance().options(...)]; [urls] is [None] when
    it is [undefined]. *)
Record ClientOptions : Type := mkClientOptions {
  APIKEY : option string;
  APISECRET : option string;
  urls : option Urls
}.

Definition clientOptions (config : Credentials) : ClientOptions :=
  {| APIKEY := apiKey config;
     APISECRET := apiSecret config;
     urls := if testnet config
             then Some {| base := "https://testnet.binance.vision/api/";
                          stream := "wss://testnet.binance.vision/ws/";
                          combinedStream :=
                            "wss://testnet.binance.vision/stream?streams=" |}
             else None |}.

(** ** A [Map] with string keys: [has], [get] and [set] *)

Definition StringMap (V : Type) : Type := list (string * V).

Fixpoint map_get {V : Type} (key : string) (m : StringMap V) : option V :=
  match m with
  | [] => None
  | (k, v) :: m' => if String.eqb key k then Some v else map_get key m'
  end.

Definition map_has {V : Type} (key : string) (m : StringMap V) : bool :=
  match map_get key m with
  | Some _ => true
  | None => false
  end.

Definition map_set {V : Type} (key : string) (value : V) (m : StringMap V)
  : StringMap V :=
  (key, value) :: m.

(** Whether a character occurs in a string. *)
Fixpoint occurs (c : Ascii.ascii) (s : string) : bool :=
  match s with
  | EmptyString => false
  | String a s' => Ascii.eqb a c || occurs c s'
  end.

(** [`${symbol}_${interval}`] (line 257). *)
Definition cacheKey (symbol interval : string) : string :=
  (symbol ++ "_" ++ interval)%string.

Section OtherHandlers.

Context {N : Number}.
Variable parseFloat : string -> num.

(** *** The controller's [getCandlesticks] (src/unnamed/part_000, lines
        27-58): the same handler without the outlier pass. *)

Definition controller_format (c : RawCandle) : Candle :=
  {| time := newDate (raw_openTime c);
     open := parseFloat (raw_open c);
     high := parseFloat (raw_high c);
     low := parseFloat (raw_low c);
     close := parseFloat (raw_close c);
     volume := parseFloat (raw_volume c) |}.

Definition controller_tryBlock (awaited : Outcome (option (list RawCandle)))
  : Outcome (list Candle) :=
  bind awaited (fun candles =>
    match candles with
    | None | Some [] => Throw "No candle data received from Binance"%string
    | Some candles =>
        let formatted := map controller_format candles in
        Return formatted
    end).

Definition controller_getCandlesticks
    (awaited : Outcome (option (list RawCandle))) : Response :=
  match controller_tryBlock awaited with
  | Return formatted => {| status := 200%Z; body := JsonCandles formatted |}
  | Throw message =>
      {| status := 500%Z;
         body := JsonError (Some message)
                   (Some "Failed to fetch candle data from Binance API"%string) |}
  | ThrowWithoutMessage =>
      {| status := 500%Z;
         body := JsonError None
                   (Some "Failed to fetch candle data from Binance API"%string) |}
  | ThrowNullish =>
      {| status := 500%Z; body := NotSent |}
  end.

(** *** [formatCandles] (binance_server.js, lines 54-63) *)

(** A candle as an array, by its first six entries: [c[0]] is the opening
    time, [c[1]] to [c[5]] are the numerals. *)
Definition Row : Type := Z * string * string * string * string * string.

Definition formatCandles (candles : list Row) : list Candle :=
  map (fun c : Row =>
         let '(c0, c1, c2, c3, c4, c5) := c in
         {| time := newDate c0;
            open := parseFloat c1;
            high := parseFloat c2;
            low := parseFloat c3;
            close := parseFloat c4;
            volume := parseFloat c5 |})
      candles.

(** *** The real-time handlers (binance_server.js, lines 228-278) *)

(** The values [activeConnections] holds and the handlers send: a number
    (a price from the ticker), a string (a price from the provider) or an
    array of candles. *)
Inductive JsValue : Type :=
| JsNumber (x : num)
| JsString (s : string)
| JsCandles (candles : list Candle).

(** The web sockets opened so far, in the order of the calls. *)
Inductive Subscription : Type :=
| TickerSubscription (symbol : string)
| ChartSubscription (symbol interval : string).

(** The module-level state: the [activeConnections] map and the
    subscriptions made with [binanceClient.websockets]. *)
Record Server : Type := mkServer {
  activeConnections : StringMap JsValue;
  subscriptions : list Subscription
}.

(** The bodies of these handlers: [{ price: ... }], where an [undefined]
    price is [None]; a bare value; [{ error: ... }], where an [undefined]
    error is [None] and the body is [{}].  [ReplyNotSent] is the body of a
    response that is never sent. *)
Inductive Reply : Type :=
| ReplyPrice (price : option JsValue)
| ReplyValue (value : option JsValue)
| ReplyError (error : option string)
| ReplyNotSent.

Record Answer : Type := mkAnswer {
  answer_status : Z;
  answer_body : Reply
}.

(** [getPrice] (lines 70-78).  [awaited] is the outcome of
    [await binanceClient.prices(symbol)], a table from symbols to
    numerals.  In the [catch] block,
    [res.status(500).json({ error: error.message })], the call
    [res.status(500)] comes before [error.message] is read: on [null] and
    [undefined] the status is set and nothing is sent. *)
Definition getPrice (symbol : string) (awaited : Outcome (StringMap string))
  : Answer :=
  match awaited with
  | Return ticker =>
      {| answer_status := 200%Z;
         answer_body :=
           ReplyPrice (option_map JsString (map_get symbol ticker)) |}
  | Throw message =>
      {| answer_status := 500%Z; answer_body := ReplyError (Some message) |}
  | ThrowWithoutMessage =>
      {| answer_status := 500%Z; answer_body := ReplyError None |}
  | ThrowNullish =>
      {| answer_status := 500%Z; answer_body := ReplyNotSent |}
  end.

(** [getRealTimePrice] (lines 228-247).  All it does to the state happens
    before the [await]; what it answers after the [await] does not read
    the state. *)
Definition getRealTimePrice (symbol : string)
    (awaited : Outcome (StringMap string)) (server : Server)
  : Answer * Server :=
  if map_has symbol (activeConnections server) then
    ({| answer_status := 200%Z;
        answer_body :=
          ReplyPrice (map_get symbol (activeConnections server)) |},
     server)
  else
    let server :=
      {| activeConnections := activeConnections server;
         subscriptions :=
           subscriptions server ++ [TickerSubscription symbol] |} in
    match awaited with
    | Return ticker =>
        ({| answer_status := 200%Z;
            answer_body :=
              ReplyPrice (option_map JsString (map_get symbol ticker)) |},
         server)
    | Throw message =>
        ({| answer_status := 500%Z; answer_body := ReplyError (Some message) |},
         server)
    | ThrowWithoutMessage =>
        ({| answer_status := 500%Z; answer_body := ReplyError None |}, server)
    | ThrowNullish =>
        ({| answer_status := 500%Z; answer_body := ReplyNotSent |}, server)
    end.

(** The callback of the ticker subscription (lines 236-239). *)
Definition onTicker (symbol close : string) (server : Server) : Server :=
  let price := parseFloat close in
  {| activeConnections :=
       map_set symbol (JsNumber price) (activeConnections server);
     subscriptions := subscriptions server |}.

(** [getRealTimeCandlesticks] (lines 254-278) runs in two parts, before
    and after [await binanceClient.candlesticks(symbol, interval)]; other
    requests and callbacks may run in between. *)
Inductive Started : Type :=
| Answered (answer : Answer)
| Awaiting.

Definition getRealTimeCandlesticks_begin (symbol interval : string)
    (server : Server) : Started :=
  let cacheKey := cacheKey symbol interval in
  if map_has cacheKey (activeConnections server) then
    Answered {| answer_status := 200%Z;
                answer_body :=
                  ReplyValue (map_get cacheKey (activeConnections server)) |}
  else Awaiting.

(** The part after the [await].  [awaited] is the provider's rejection or
    its value, [None] when it is [null]; calling [map] on that throws a
    [TypeError], whose message is the engine's.  The [catch] block is that
    of [getPrice]. *)
Variable typeErrorMessage : string.

Definition getRealTimeCandlesticks_resume (symbol interval : string)
    (awaited : Outcome (option (list Row))) (server : Server)
  : Answer * Server :=
  let cacheKey := cacheKey symbol interval in
  match awaited with
  | Return (Some initialCandles) =>
      let formatted := formatCandles initialCandles in
      ({| answer_status := 200%Z;
          answer_body := ReplyValue (Some (JsCandles formatted)) |},
       {| activeConnections :=
            map_set cacheKey (JsCandles formatted) (activeConnections server);
          subscriptions :=
            subscriptions server ++ [ChartSubscription symbol interval] |})
  | Return None =>
      ({| answer_status := 500%Z;
          answer_body := ReplyError (Some typeErrorMessage) |}, server)
  | Throw message =>
      ({| answer_status := 500%Z; answer_body := ReplyError (Some message) |},
       server)
  | ThrowWithoutMessage =>
      ({| answer_status := 500%Z; answer_body := ReplyError None |}, server)
  | ThrowNullish =>
      ({| answer_status := 500%Z; answer_body := ReplyNotSent |}, server)
  end.

(** The callback of the chart subscription (lines 267-272): [chart] is
    [Object.values(chart)]. *)
Definition onChart (symbol interval : string) (chart : list RawCandle)
    (server : Server) : Server :=
  let candles :=
    map (fun c => (raw_openTime c, raw_open c, raw_high c, raw_low c,
                   raw_close c, raw_volume c)) chart in
  {| activeConnections :=
       map_set (cacheKey symbol interval) (JsCandles (formatCandles candles))
         (activeConnections server);
     subscriptions := subscriptions server |}.

(** What can happen to the state: a price request, a tick, the second part
    of a candle request, a chart update.  (The first part of a candle
    request leaves the state as it is.) *)
Inductive Event : Type :=
| PriceRequested (symbol : string) (awaited : Outcome (StringMap string))
| TickerFired (symbol close : string)
| CandlesFetched (symbol interval : string)
    (awaited : Outcome (option (list Row)))
| ChartFired (symbol interval : string) (chart : list RawCandle).

Definition react (server : Server) (e : Event) : Server :=
  match e with
  | PriceRequested symbol awaited =>
      snd (getRealTimePrice symbol awaited server)
  | TickerFired symbol close => onTicker symbol close server
  | CandlesFetched symbol interval awaited =>
      snd (getRealTimeCandlesticks_resume symbol interval awaited server)
  | ChartFired symbol interval chart => onChart symbol interval chart server
  end.

(** The key of [activeConnections] an event may write. *)
Definition written (e : Event) : option string :=
  match e with
  | PriceRequested _ _ => None
  | TickerFired symbol _ => Some symbol
  | CandlesFetched symbol interval _ => Some (cacheKey symbol interval)
  | ChartFired symbol interval _ => Some (cacheKey symbol interval)
  end.

End OtherHandlers.

(** ** Samples for the other handlers *)

(** A window with a run of two spikes in the middle: typical prices 100,
    101, 5000, 6000, 99, 102 and 100. *)
Definition spike_run_window : list (@Formatted Binary64) :=
  [ bar 1000 100 101 99 100 10;
    bar 2000 101 102 100 101 20;
    bar 3000 5000 5001 4999 5000 30;
    bar 4000 6000 6001 5999 6000 40;
    bar 5000 99 100 98 99 50;
    bar 6000 102 103 101 102 60;
    bar 7000 100 101 99 100 70 ]%float.

(** [parseFloat] on the numerals of the samples; the other strings of the
    samples are not numerals. *)
Definition sample_parseFloat (s : string) : float :=
  if String.eqb s "100" then 100%float
  else if String.eqb s "101.5" then 101.5%float
  else if String.eqb s "99" then 99%float
  else nan.

Definition sample_rows : list Row :=
  [ (1000%Z, "100", "101.5", "99", "100", "99");
    (2000%Z, "100", "101.5", "99", "101.5", "100") ]%string.

(** A state in which a tick at 100 has arrived for BTCUSDT. *)
Definition sample_server : @Server Binary64 :=
  @mkServer Binary64
    [("BTCUSDT"%string, @JsNumber Binary64 100%float)]
    [TickerSubscription "BTCUSDT"].

Definition empty_server : @Server Binary64 := @mkServer Binary64 [] [].

Definition sample_events : list Event :=
  [ PriceRequested "ETHUSDT" (Throw "timeout");
    CandlesFetched "BTCUSDT" "1m" (Return (Some sample_rows));
    TickerFired "BTCUSDT" "99" ]%string.

Definition sample_chart : list RawCandle :=
  [ mkRawCandle 1000 "100" "101.5" "99" "100" "99" ]%string.

(** * Proofs *)

Lemma firstn_length_app {A : Type} (l1 l2 : list A) :
  firstn (List.length l1) (l1 ++ l2) = l1.
Proof.
  rewrite firstn_app, firstn_all, Nat.sub_diag. simpl. apply app_nil_r.
Qed.

(** * Facts about the loop *)

Section LoopFacts.

Context {N : Number}.
Variable stats : option Stats.

Lemma loopBody_unfold (st : LoopState) (current : Formatted) :
  loopBody stats st current =
  {| cleanedCandles :=
       cleanedCandles st ++ [candleToAdd stats (previousValidCandle st) current];
     previousValidCandle :=
       nextValidCandle stats (previousValidCandle st) current |}.
Proof.
  unfold loopBody, candleToAdd, nextValidCandle.
  destruct (previousValidCandle st) as [p|]; [|reflexivity].
  destruct (isOutlier stats current); reflexivity.
Qed.

Lemma cleaned_fold (l : list Formatted) :
  forall st : LoopState,
  exists ext,
    cleanedCandles (fold_left (loopBody stats) l st) = cleanedCandles st ++ ext
    /\ List.length ext = List.length l.
Proof.
  induction l as [|c l IH]; intros st; simpl.
  - exists []. now rewrite app_nil_r.
  - destruct (IH (loopBody stats st c)) as (ext & E & L).
    exists (candleToAdd stats (previousValidCandle st) c :: ext).
    rewrite E, loopBody_unfold. simpl. rewrite <- app_assoc. simpl.
    split; [reflexivity|now rewrite L].
Qed.

Lemma cleaned_length (l : list Formatted) :
  List.length (cleanedCandles (loop stats l)) = List.length l.
Proof.
  unfold loop. destruct (cleaned_fold l initialState) as (ext & E & L).
  rewrite E. simpl. exact L.
Qed.

Lemma loop_snoc (l : list Formatted) (c : Formatted) :
  loop stats (l ++ [c]) = loopBody stats (loop stats l) c.
Proof. unfold loop. now rewrite fold_left_app. Qed.

Lemma loop_app (l1 l2 : list Formatted) :
  loop stats (l1 ++ l2) = fold_left (loopBody stats) l2 (loop stats l1).
Proof. unfold loop. now rewrite fold_left_app. Qed.

(** The candle pushed at index [k] is the one iteration [k] computes from
    the state left by the first [k] iterations. *)
Lemma cleaned_nth (formatted : list Formatted) (k : nat) (c : Formatted) :
  nth_error formatted k = Some c ->
  nth_error (cleanedCandles (loop stats formatted)) k =
  Some (candleToAdd stats
          (previousValidCandle (loop stats (firstn k formatted))) c).
Proof.
  intros H. destruct (nth_error_split _ _ H) as (l1 & l2 & -> & <-).
  rewrite firstn_length_app, loop_app. simpl.
  destruct (cleaned_fold l2 (loopBody stats (loop stats l1) c))
    as (ext & E & _).
  rewrite E, loopBody_unfold. simpl. rewrite <- app_assoc.
  rewrite nth_error_app2; rewrite cleaned_length; [|lia].
  now rewrite Nat.sub_diag.
Qed.

(** Iteration [k] takes the state after [k] candles to the state after
    [k + 1]. *)
Lemma loop_firstn_S (formatted : list Formatted) (k : nat) (c : Formatted) :
  nth_error formatted k = Some c ->
  loop stats (firstn (S k) formatted) =
  loopBody stats (loop stats (firstn k formatted)) c.
Proof.
  intros H. destruct (nth_error_split _ _ H) as (l1 & l2 & -> & <-).
  rewrite firstn_length_app.
  replace (S (List.length l1)) with (List.length l1 + 1) by lia.
  rewrite firstn_app_2. simpl. apply loop_snoc.
Qed.

(** From the first iteration on, [previousValidCandle] is never null. *)
Lemma previous_fold_Some (l : list Formatted) :
  forall st p,
    previousValidCandle st = Some p ->
    exists q, previousValidCandle (fold_left (loopBody stats) l st) = Some q.
Proof.
  induction l as [|c l IH]; intros st p Hp; simpl.
  - now exists p.
  - rewrite loopBody_unfold, Hp. simpl.
    destruct (isOutlier stats c); eapply IH; reflexivity.
Qed.

(** The first iteration stores the first candle, whatever the test says. *)
Lemma loop_first (c0 : Formatted) :
  loop stats [c0] =
  {| cleanedCandles := [c0]; previousValidCandle := Some c0 |}.
Proof. reflexivity. Qed.

(** [previousValidCandle] is one of the candles already visited. *)
Lemma previous_fold_In (l : list Formatted) :
  forall st p,
    previousValidCandle (fold_left (loopBody stats) l st) = Some p ->
    previousValidCandle st = Some p \/ In p l.
Proof.
  induction l as [|c l IH]; intros st p Hp; simpl in *.
  - now left.
  - apply IH in Hp. destruct Hp as [Hp|Hp]; [|now right; right].
    rewrite loopBody_unfold in Hp. simpl in Hp.
    unfold nextValidCandle in Hp.
    destruct (previousValidCandle st) as [q|].
    + destruct (isOutlier stats c); [now left|].
      injection Hp as <-. right. now left.
    + injection Hp as <-. right. now left.
Qed.

Lemma previous_earlier (formatted : list Formatted) (k : nat)
    (p : Formatted) :
  previousValidCandle (loop stats (firstn k formatted)) = Some p ->
  exists j, j < k /\ nth_error formatted j = Some p.
Proof.
  intros H. apply previous_fold_In in H. destruct H as [H|H]; [discriminate|].
  apply In_nth_error in H. destruct H as (j & Hj).
  assert (Hlt : j < List.length (firstn k formatted))
    by (apply nth_error_Some; congruence).
  rewrite length_firstn in Hlt.
  exists j. split; [lia|].
  rewrite nth_error_firstn in Hj.
  destruct (Nat.ltb_spec j k); [assumption|lia].
Qed.

End LoopFacts.

(** * The sanitizer, position by position *)

Section Positions.

Context {N : Number}.
Variable formatted : list Formatted.

Lemma stateAfter_S (k : nat) (c : Formatted) :
  nth_error formatted k = Some c ->
  stateAfter formatted (S k) =
  loopBody (detectOutliers formatted) (stateAfter formatted k) c.
Proof. apply loop_firstn_S. Qed.

Lemma stateAfter_previous_S (k : nat) (c : Formatted) :
  nth_error formatted k = Some c ->
  previousValidCandle (stateAfter formatted (S k)) =
  nextValidCandle (detectOutliers formatted)
    (previousValidCandle (stateAfter formatted k)) c.
Proof.
  intros H. rewrite (stateAfter_S k c H), loopBody_unfold. reflexivity.
Qed.

(** Position [k] of the answer. *)
Lemma sanitize_nth (k : nat) (c : Formatted) :
  nth_error formatted k = Some c ->
  nth_error (sanitize formatted) k =
  Some (candle (candleToAdd (detectOutliers formatted)
                  (previousValidCandle (stateAfter formatted k)) c)).
Proof.
  intros H. unfold sanitize, stateAfter.
  now rewrite nth_error_map, (cleaned_nth _ _ _ _ H).
Qed.

Lemma sanitize_nth_first (c0 : Formatted) :
  nth_error formatted 0 = Some c0 ->
  nth_error (sanitize formatted) 0 = Some (candle c0).
Proof. intros H. rewrite (sanitize_nth 0 c0 H). reflexivity. Qed.

Lemma sanitize_length :
  List.length (sanitize formatted) = List.length formatted.
Proof. unfold sanitize. now rewrite length_map, cleaned_length. Qed.

(** After at least one iteration [previousValidCandle] holds a candle. *)
Lemma stateAfter_previous_Some (k : nat) :
  S k <= List.length formatted ->
  exists p, previousValidCandle (stateAfter formatted (S k)) = Some p.
Proof.
  intros Hk. unfold stateAfter.
  destruct formatted as [|c0 l]; [simpl in Hk; lia|].
  simpl firstn. change (c0 :: firstn k l) with ([c0] ++ firstn k l).
  rewrite loop_app. eapply previous_fold_Some. reflexivity.
Qed.

(** When the candle at [k] is not flagged it becomes [previousValidCandle]. *)
Lemma stateAfter_previous_accepted (k : nat) (c : Formatted) :
  nth_error formatted k = Some c ->
  flagged formatted c = false ->
  previousValidCandle (stateAfter formatted (S k)) = Some c.
Proof.
  intros H F. rewrite (stateAfter_previous_S k c H).
  unfold nextValidCandle. unfold flagged in F. rewrite F.
  now destruct (previousValidCandle (stateAfter formatted k)).
Qed.

End Positions.


(** * Properties that follow the data flow *)

Section Flow.

Context {N : Number}.

(** C9.  The first candle of the answer is the first candle of the input in
    all six fields, flagged or not: at the first iteration
    [previousValidCandle] is still null. *)
Theorem first_candle_unchanged (c0 : Formatted) (rest : list Formatted) :
  nth_error (sanitize (c0 :: rest)) 0 = Some (candle c0)
  /\ (forall o, nth_error (sanitize (c0 :: rest)) 0 = Some o ->
        time o = time (candle c0) /\ open o = open (candle c0)
        /\ high o = high (candle c0) /\ low o = low (candle c0)
        /\ close o = close (candle c0) /\ volume o = volume (candle c0)).
Proof.
  assert (H : nth_error (sanitize (c0 :: rest)) 0 = Some (candle c0))
    by (now apply sanitize_nth_first).
  split; [exact H|].
  intros o Ho. rewrite H in Ho. injection Ho as <-. repeat split.
Qed.

(** C6.  The answer has the length of the input, and position [i] of the
    answer is made from position [i] of the input: it is that candle, or
    that candle corrected with a candle of an earlier position. *)
Theorem sanitize_length_and_order (formatted : list Formatted) :
  List.length (sanitize formatted) = List.length formatted
  /\ (forall i c, nth_error formatted i = Some c ->
        exists o, nth_error (sanitize formatted) i = Some o
          /\ (o = candle c
              \/ exists j p, j < i /\ nth_error formatted j = Some p
                             /\ o = candle (corrected p c))).
Proof.
  split; [apply sanitize_length|].
  intros i c H. rewrite (sanitize_nth formatted i c H).
  eexists. split; [reflexivity|].
  unfold candleToAdd.
  destruct (previousValidCandle (stateAfter formatted i)) as [p|] eqn:E;
    [|now left].
  destruct (isOutlier (detectOutliers formatted) c); [|now left].
  right. destruct (previous_earlier _ _ _ _ E) as (j & Hj & Hp).
  now exists j, p.
Qed.

(** C7.  Every position of the answer keeps the time and the volume of the
    same position of the input, corrected or not. *)
Theorem time_volume_fidelity (formatted : list Formatted) :
  map time (sanitize formatted) = map time (map candle formatted)
  /\ map volume (sanitize formatted) = map volume (map candle formatted)
  /\ (forall i c, nth_error formatted i = Some c ->
        exists o, nth_error (sanitize formatted) i = Some o
          /\ time o = time (candle c) /\ volume o = volume (candle c)).
Proof.
  assert (P : forall i c, nth_error formatted i = Some c ->
        exists o, nth_error (sanitize formatted) i = Some o
          /\ time o = time (candle c) /\ volume o = volume (candle c)).
  { intros i c H. rewrite (sanitize_nth formatted i c H).
    eexists. split; [reflexivity|].
    unfold candleToAdd.
    destruct (previousValidCandle (stateAfter formatted i)); [|now split].
    destruct (isOutlier (detectOutliers formatted) c); now split. }
  assert (Q : forall (A : Type) (f : Candle -> A),
             (forall i c, nth_error formatted i = Some c ->
                exists o, nth_error (sanitize formatted) i = Some o
                          /\ f o = f (candle c)) ->
             map f (sanitize formatted) = map f (map candle formatted)).
  { intros A f Hf. apply nth_error_ext. intros i.
    rewrite !nth_error_map.
    destruct (nth_error formatted i) as [c|] eqn:E.
    - destruct (Hf i c E) as (o & Ho & Hfo). rewrite Ho. simpl.
      now rewrite Hfo.
    - apply nth_error_None in E.
      assert (E' : nth_error (sanitize formatted) i = None)
        by (apply nth_error_None; rewrite sanitize_length; exact E).
      now rewrite E'. }
  split; [|split; [|exact P]].
  - apply Q. intros i c H. destruct (P i c H) as (o & Ho & Ht & _).
    now exists o.
  - apply Q. intros i c H. destruct (P i c H) as (o & Ho & _ & Hv).
    now exists o.
Qed.

(** C5.  When no candle of the input is flagged the answer is the input,
    candle by candle. *)
Theorem clean_input_unchanged (formatted : list Formatted) :
  Forall (fun c => flagged formatted c = false) formatted ->
  sanitize formatted = map candle formatted.
Proof.
  intros H. apply nth_error_ext. intros i. rewrite nth_error_map.
  destruct (nth_error formatted i) as [c|] eqn:E.
  - rewrite (sanitize_nth formatted i c E). simpl. do 2 f_equal.
    assert (F : flagged formatted c = false).
    { rewrite Forall_forall in H. apply H. eapply nth_error_In, E. }
    unfold candleToAdd. unfold flagged in F. rewrite F.
    now destruct (previousValidCandle (stateAfter formatted i)).
  - apply nth_error_None. rewrite sanitize_length.
    now apply nth_error_None.
Qed.

(** C2.  When the candle at [k] is not flagged and the next one is, the
    answer at [k + 1] has the open, high, low and close of the answer at
    [k] and the time and volume of its own input candle, and the iteration
    leaves [previousValidCandle] as it was. *)
Theorem substitution_after_accepted (formatted : list Formatted) (k : nat)
    (previous current : Formatted) :
  nth_error formatted k = Some previous ->
  nth_error formatted (S k) = Some current ->
  flagged formatted previous = false ->
  flagged formatted current = true ->
  exists o_prev o_cur,
    nth_error (sanitize formatted) k = Some o_prev
    /\ nth_error (sanitize formatted) (S k) = Some o_cur
    /\ o_prev = candle previous
    /\ open o_cur = open o_prev /\ high o_cur = high o_prev
    /\ low o_cur = low o_prev /\ close o_cur = close o_prev
    /\ time o_cur = time (candle current)
    /\ volume o_cur = volume (candle current)
    /\ previousValidCandle (stateAfter formatted (S (S k))) =
       previousValidCandle (stateAfter formatted (S k))
    /\ previousValidCandle (stateAfter formatted (S k)) = Some previous.
Proof.
  intros Hp Hc Fp Fc.
  pose proof (stateAfter_previous_accepted formatted k previous Hp Fp) as E.
  rewrite (sanitize_nth formatted k previous Hp).
  rewrite (sanitize_nth formatted (S k) current Hc).
  rewrite (stateAfter_previous_S formatted (S k) current Hc), E.
  unfold flagged in Fp, Fc.
  unfold candleToAdd, nextValidCandle. rewrite Fp, Fc.
  do 2 eexists. split; [reflexivity|]. split; [reflexivity|].
  split; [now destruct (previousValidCandle (stateAfter formatted k))|].
  simpl. destruct (previousValidCandle (stateAfter formatted k));
    repeat split; reflexivity.
Qed.

End Flow.

Section LeadingRun.

Context {N : Number}.

Variables (c0 : Formatted) (run rest : list Formatted).
Let formatted := c0 :: run ++ rest.
Hypothesis run_flagged : Forall (fun c => flagged formatted c = true) run.

Lemma leading_run_nth (i : nat) (c : Formatted) :
  nth_error run i = Some c -> nth_error formatted (S i) = Some c.
Proof.
  intros H. unfold formatted. simpl. rewrite nth_error_app1; [exact H|].
  apply nth_error_Some. congruence.
Qed.

Lemma leading_run_flagged (i : nat) (c : Formatted) :
  nth_error run i = Some c -> isOutlier (detectOutliers formatted) c = true.
Proof.
  intros E. pose proof run_flagged as F. rewrite Forall_forall in F.
  apply F. eapply nth_error_In, E.
Qed.

Lemma leading_run_previous (i : nat) :
  i <= List.length run ->
  previousValidCandle (stateAfter formatted (S i)) = Some c0.
Proof.
  induction i as [|i IH]; intros Hi.
  - reflexivity.
  - destruct (nth_error run i) as [c|] eqn:E;
      [|apply nth_error_None in E; lia].
    rewrite (stateAfter_previous_S formatted (S i) c (leading_run_nth i c E)).
    rewrite IH by lia. unfold nextValidCandle.
    now rewrite (leading_run_flagged i c E).
Qed.

(** What the loop does with a run of flagged candles after the first
    candle.  The first candle is emitted unchanged and is stored in
    [previousValidCandle], flagged or not.  Every flagged candle of the run
    that follows it is emitted with the first candle's open, high, low and
    close and its own time and volume, and leaves the stored candle in
    place.  The first candle that is not flagged is emitted unchanged and
    replaces the stored candle. *)
Lemma leading_run_takes_first_candle :
  nth_error (sanitize formatted) 0 = Some (candle c0)
  /\ previousValidCandle (stateAfter formatted 1) = Some c0
  /\ (forall i c, nth_error run i = Some c ->
        (exists o,
           nth_error (sanitize formatted) (S i) = Some o
           /\ open o = open (candle c0) /\ high o = high (candle c0)
           /\ low o = low (candle c0) /\ close o = close (candle c0)
           /\ time o = time (candle c) /\ volume o = volume (candle c))
        /\ previousValidCandle (stateAfter formatted (S (S i))) = Some c0)
  /\ (forall c rest', rest = c :: rest' -> flagged formatted c = false ->
        nth_error (sanitize formatted) (S (List.length run))
        = Some (candle c)
        /\ previousValidCandle (stateAfter formatted (S (S (List.length run))))
           = Some c).
Proof.
  split; [now apply sanitize_nth_first|].
  split; [reflexivity|].
  split.
  - intros i c E.
    assert (Hi : i < List.length run) by (apply nth_error_Some; congruence).
    split; [|apply leading_run_previous; lia].
    rewrite (sanitize_nth formatted (S i) c (leading_run_nth i c E)).
    rewrite leading_run_previous by lia.
    unfold candleToAdd. rewrite (leading_run_flagged i c E).
    eexists. split; [reflexivity|]. repeat split.
  - intros c rest' Hrest F.
    assert (E : nth_error formatted (S (List.length run)) = Some c).
    { unfold formatted. rewrite Hrest. simpl.
      rewrite nth_error_app2 by lia. now rewrite Nat.sub_diag. }
    split; [|now apply stateAfter_previous_accepted].
    rewrite (sanitize_nth formatted _ c E).
    rewrite leading_run_previous by lia.
    unfold candleToAdd. unfold flagged in F. now rewrite F.
Qed.

End LeadingRun.

Section FlagTest.

Context {N : Number}.

(** C4.  With the thresholds [s] of the input, a candle is flagged exactly
    when its high or its low lies above [threshold s] or below
    [lowerThreshold s]; two candles with the same high and low get the same
    verdict whatever their open and close; and the verdict is what the loop
    acts on once a candle is stored. *)
Theorem flagged_iff_high_or_low_outside (formatted : list Formatted)
    (s : Stats) (c : Formatted) :
  detectOutliers formatted = Some s ->
  (flagged formatted c = true <->
     nlt (threshold s) (high (candle c)) = true
     \/ nlt (high (candle c)) (lowerThreshold s) = true
     \/ nlt (threshold s) (low (candle c)) = true
     \/ nlt (low (candle c)) (lowerThreshold s) = true)
  /\ (forall c', high (candle c') = high (candle c) ->
                 low (candle c') = low (candle c) ->
                 flagged formatted c' = flagged formatted c)
  /\ (forall k p, nth_error formatted k = Some c ->
        previousValidCandle (stateAfter formatted k) = Some p ->
        nth_error (sanitize formatted) k =
        Some (candle (if flagged formatted c then corrected p c else c))).
Proof.
  intros Hs. unfold flagged. rewrite Hs. split; [|split].
  - unfold isOutlier. rewrite !orb_true_iff. tauto.
  - intros c' Hh Hl. unfold isOutlier. now rewrite Hh, Hl.
  - intros k p Hk Hp. rewrite (sanitize_nth formatted k c Hk), Hp, Hs.
    reflexivity.
Qed.

End FlagTest.

(** * The sample windows *)

Lemma leading_spikes_flags :
  map (flagged leading_spikes) leading_spikes
  = [true; true; false; false; false].
Proof. vm_compute. reflexivity. Qed.

(** The behaviour C1 describes does not hold on [leading_spikes]. *)
Lemma leading_spikes_not_passed_through :
  ~ leading_outliers_pass_through leading_spikes.
Proof.
  intros H.
  destruct (H 1 (bar 2000 6000 6001 5999 6000 20) eq_refl) as [Hout _].
  - intros j cj Hj Hn.
    destruct j as [|[|j]]; [| |lia]; injection Hn as <-;
      vm_compute; reflexivity.
  - vm_compute in Hout. discriminate Hout.
Qed.

(** C1.  On [leading_spikes] the first two candles are flagged and no
    candle has been accepted before them.  The loop stores the first one in
    [previousValidCandle] all the same, and emits the second one with the
    first one's open, high, low and close, where C1 has it pass through
    unchanged with nothing stored. *)
Theorem leading_spikes_first_spike_is_stored :
  map (flagged leading_spikes) leading_spikes
  = [true; true; false; false; false]
  /\ previousValidCandle (stateAfter leading_spikes 0) = None
  /\ previousValidCandle (stateAfter leading_spikes 1)
     = Some (bar 1000 5000 5001 4999 5000 10)
  /\ previousValidCandle (stateAfter leading_spikes 2)
     = Some (bar 1000 5000 5001 4999 5000 10)
  /\ sanitize leading_spikes
     = map candle
         [ bar 1000 5000 5001 4999 5000 10;
           bar 2000 5000 5001 4999 5000 20;
           bar 3000 100 101 99 100 30;
           bar 4000 101 102 100 101 40;
           bar 5000 99 100 98 99 50 ]%float
  /\ nth_error (sanitize leading_spikes) 1
     <> Some (candle (bar 2000 6000 6001 5999 6000 20)).
Proof.
  repeat split; try (vm_compute; reflexivity).
  vm_compute. discriminate.
Qed.

(** The run of [leading_spikes], by the general statement. *)
Lemma leading_run_takes_first_candle_on_spikes :
  (exists o,
     nth_error (sanitize leading_spikes) 1 = Some o
     /\ open o = 5000%float /\ high o = 5001%float
     /\ low o = 4999%float /\ close o = 5000%float
     /\ time o = ValidDate 2000 /\ volume o = 20%float)
  /\ previousValidCandle (stateAfter leading_spikes 2)
     = Some (bar 1000 5000 5001 4999 5000 10).
Proof.
  refine (proj1 (proj2 (proj2
    (@leading_run_takes_first_candle Binary64
       (bar 1000 5000 5001 4999 5000 10)
       [bar 2000 6000 6001 5999 6000 20]
       [bar 3000 100 101 99 100 30; bar 4000 101 102 100 101 40;
        bar 5000 99 100 98 99 50] _))) 0 _ eq_refl).
  constructor; [vm_compute; reflexivity|constructor].
Defined.

Lemma clean_input_unchanged_on_calm_window :
  sanitize calm_window = map candle calm_window.
Proof.
  apply (@clean_input_unchanged Binary64 calm_window).
  repeat (constructor; [vm_compute; reflexivity|]). constructor.
Defined.

Lemma substitution_after_accepted_on_spike :
  exists o_prev o_cur,
    nth_error (sanitize spike_window) 3 = Some o_prev
    /\ nth_error (sanitize spike_window) 4 = Some o_cur
    /\ o_prev = candle (bar 4000 102 103 101 102 40)
    /\ open o_cur = open o_prev /\ high o_cur = high o_prev
    /\ low o_cur = low o_prev /\ close o_cur = close o_prev
    /\ time o_cur = ValidDate 5000
    /\ volume o_cur = 50%float
    /\ previousValidCandle (stateAfter spike_window 5) =
       previousValidCandle (stateAfter spike_window 4)
    /\ previousValidCandle (stateAfter spike_window 4)
       = Some (bar 4000 102 103 101 102 40).
Proof.
  apply (@substitution_after_accepted Binary64 spike_window 3
           (bar 4000 102 103 101 102 40)
           (bar 5000 5000 5001 4999 5000 50));
    vm_compute; reflexivity.
Defined.

Lemma flagged_iff_high_or_low_outside_on_spike :
  exists s : @Stats Binary64, detectOutliers spike_window = Some s
    /\ (flagged spike_window (bar 5000 5000 5001 4999 5000 50) = true <->
          PrimFloat.ltb (threshold s) 5001 = true
          \/ PrimFloat.ltb 5001 (lowerThreshold s) = true
          \/ PrimFloat.ltb (threshold s) 4999 = true
          \/ PrimFloat.ltb 4999 (lowerThreshold s) = true).
Proof.
  destruct (detectOutliers spike_window) as [s|] eqn:E;
    [|vm_compute in E; discriminate E].
  exists s. split; [reflexivity|].
  exact (proj1 (@flagged_iff_high_or_low_outside Binary64 spike_window s
                  (bar 5000 5000 5001 4999 5000 50) E)).
Defined.

(** * The handler *)

Section Handler.

Context {N : Number}.
Variable parseFloat : string -> num.

(** C8, as the code has it.  A missing or empty provider response makes
    the [try] block throw the "no candle data" error before anything is
    computed.  What is thrown, this error or the provider's rejection, is
    answered with status 500 and a body with [error] and [details] when it
    has a message; a rejection with a value without a message is answered
    with status 500 and [details] alone, and a rejection with [null] or
    [undefined] is not answered.  On a non-empty response nothing is thrown:
    the answer is status 200 with the sanitized candles, as many as the
    provider sent.  So but for the rejections without a message, every
    answer is the candles with status 200 or an [error] and [details] with
    status 500. *)
Theorem getCandlesticks_answers :
  tryBlock parseFloat (Return None)
    = Throw "No candle data received from Binance"%string
  /\ tryBlock parseFloat (Return (Some []))
    = Throw "No candle data received from Binance"%string
  /\ getCandlesticks parseFloat (Return None)
    = failure "No candle data received from Binance"%string
  /\ getCandlesticks parseFloat (Return (Some []))
    = failure "No candle data received from Binance"%string
  /\ (forall message,
        getCandlesticks parseFloat (Throw message)
        = {| status := 500%Z;
             body := JsonError (Some message)
                       (Some "Failed to fetch candle data from Binance API"%string) |})
  /\ getCandlesticks parseFloat ThrowWithoutMessage
     = {| status := 500%Z;
          body := JsonError None
                    (Some "Failed to fetch candle data from Binance API"%string) |}
  /\ getCandlesticks parseFloat ThrowNullish
     = {| status := 500%Z; body := NotSent |}
  /\ (forall c cs,
        tryBlock parseFloat (Return (Some (c :: cs)))
          = Return (sanitize (map (format parseFloat) (c :: cs)))
        /\ getCandlesticks parseFloat (Return (Some (c :: cs)))
          = {| status := 200%Z;
               body := JsonCandles
                         (sanitize (map (format parseFloat) (c :: cs))) |}
        /\ List.length (sanitize (map (format parseFloat) (c :: cs)))
          = S (List.length cs))
  /\ (forall awaited,
        awaited <> ThrowWithoutMessage -> awaited <> ThrowNullish ->
        (status (getCandlesticks parseFloat awaited) = 200%Z
         /\ exists candles,
              body (getCandlesticks parseFloat awaited) = JsonCandles candles)
        \/ (status (getCandlesticks parseFloat awaited) = 500%Z
            /\ exists error details,
                 body (getCandlesticks parseFloat awaited)
                 = JsonError (Some error) (Some details))).
Proof.
  repeat split; try reflexivity.
  - rewrite sanitize_length, length_map. reflexivity.
  - intros [[[|c cs]|]|message| |] H1 H2; try congruence;
      [right|left|right|right];
      (split; [reflexivity|]); simpl; eauto.
Qed.

End Handler.

(** C8 fails on a provider call rejected with a value that has no
    [message]: the answer has status 500 and no [error]. *)
Lemma rejection_without_message_not_reported :
  ~ @failures_are_reported Binary64 sample_parseFloat.
Proof.
  intros H.
  destruct (H ThrowWithoutMessage)
    as [(candles & E)|(_ & error & details & E)]; discriminate E.
Qed.

(** * Sorting *)

Section Sorting.

Context {N : Number}.

Lemma insert_perm (comparefn : num -> num -> num) (x : num) (l : list num) :
  Permutation (insert comparefn x l) (x :: l).
Proof.
  induction l as [|y l IH]; simpl; [apply Permutation_refl|].
  destruct (nlt lit_0 (comparefn x y)); [|apply Permutation_refl].
  eapply Permutation_trans; [apply perm_skip, IH|apply perm_swap].
Qed.

(** Sorting rearranges the array and nothing else, whatever the
    comparator. *)
Lemma sort_perm (comparefn : num -> num -> num) (l : list num) :
  Permutation (sort comparefn l) l.
Proof.
  induction l as [|x l IH]; simpl; [apply perm_nil|].
  eapply Permutation_trans; [apply insert_perm|apply perm_skip, IH].
Qed.

Lemma sort_length (comparefn : num -> num -> num) (l : list num) :
  List.length (sort comparefn l) = List.length l.
Proof. apply Permutation_length, sort_perm. Qed.

Context {L : OrderLaws N}.

Lemma insert_sorted (x : num) (l : list num) :
  Forall comparable l ->
  StronglySorted nle l ->
  StronglySorted nle (insert (fun a b => nsub a b) x l).
Proof.
  induction l as [|y l IH]; intros C S; simpl.
  - constructor; constructor.
  - rewrite compare_by_difference.
    inversion S as [|? ? Sl Fy]; subst.
    inversion C as [|? ? Cy Cl]; subst.
    destruct (nlt y x) eqn:E.
    + constructor; [now apply IH|].
      eapply Permutation_Forall;
        [apply Permutation_sym, insert_perm|].
      constructor; [|assumption].
      unfold nle. now apply nlt_asym.
    + constructor; [assumption|].
      constructor; [exact E|].
      eapply Forall_impl; [|exact Fy].
      intros z Hz. unfold nle in *. exact (nle_trans x y z Cy E Hz).
Qed.

(** With the comparator [(a, b) => a - b] the sorted array ascends. *)
Lemma sort_sorted (l : list num) :
  Forall comparable l ->
  StronglySorted nle (sort (fun a b => nsub a b) l).
Proof.
  induction l as [|x l IH]; intros C; simpl; [constructor|].
  inversion C as [|? ? Cx Cl]; subst.
  apply insert_sorted; [|now apply IH].
  eapply Permutation_Forall; [apply Permutation_sym, sort_perm|exact Cl].
Qed.

Lemma nle_refl (a : num) : nle a a.
Proof.
  unfold nle. destruct (nlt a a) eqn:E; [|reflexivity].
  now rewrite (nlt_asym a a E) in E.
Qed.

Lemma sorted_around (u v : list num) (x : num) :
  StronglySorted nle (u ++ x :: v) ->
  Forall (fun y => nle y x) u /\ Forall (nle x) v.
Proof.
  induction u as [|y u IH]; simpl; intros S;
    inversion S as [|? ? Sl F]; subst.
  - split; [constructor|assumption].
  - destruct (IH Sl) as (Hu & Hv). split; [|assumption].
    constructor; [|assumption].
    rewrite Forall_forall in F. apply F, in_elt.
Qed.

Lemma filter_length_perm {A : Type} (f : A -> bool) (l l' : list A) :
  Permutation l l' ->
  List.length (filter f l) = List.length (filter f l').
Proof.
  induction 1 as [|x l l' _ IH|x y l|l l' l'' _ IH1 _ IH2]; simpl.
  - reflexivity.
  - destruct (f x); simpl; now rewrite IH.
  - destruct (f x), (f y); reflexivity.
  - now rewrite IH1.
Qed.

Lemma filter_none {A : Type} (f : A -> bool) (l : list A) :
  (forall x, In x l -> f x = false) -> filter f l = [].
Proof.
  induction l as [|y l IH]; intros H; simpl; [reflexivity|].
  rewrite (H y (or_introl eq_refl)). apply IH.
  intros x Hx. apply H. now right.
Qed.

(** At most the elements after the middle are above a low-median. *)
Lemma low_median_few_above (series : list num) (m : num) :
  low_median_of series m ->
  nlt m m = false ->
  List.length (filter (nlt m) series) + S (Nat.div (List.length series) 2)
  <= List.length series.
Proof.
  intros (sorted & P & Hs & H) I.
  rewrite <- (filter_length_perm (nlt m) sorted series P).
  pose proof (Permutation_length P) as E.
  destruct (nth_error_split _ _ H) as (u & v & -> & K).
  destruct (sorted_around u v m Hs) as (Hu & _).
  assert (Z : filter (nlt m) u = []).
  { apply filter_none. intros x Hx. rewrite Forall_forall in Hu.
    exact (Hu x Hx). }
  rewrite filter_app, Z. cbn [filter app]. rewrite I.
  rewrite length_app in E. cbn [List.length] in E.
  pose proof (filter_length_le (nlt m) v). lia.
Qed.

(** The element at a given index of an ascending arrangement does not
    depend on the arrangement, up to the order. *)
Lemma sorted_nth_le (l1 l2 : list num) (k : nat) (a b : num) :
  Forall comparable l1 ->
  Permutation l1 l2 ->
  StronglySorted nle l1 -> StronglySorted nle l2 ->
  nth_error l1 k = Some a -> nth_error l2 k = Some b ->
  nle a b.
Proof.
  intros C P S1 S2 Ha Hb. unfold nle.
  destruct (nlt b a) eqn:E; [exfalso|reflexivity].
  pose (below := fun x : num => negb (nlt b x)).
  pose proof (filter_length_perm below l1 l2 P) as F.
  destruct (nth_error_split _ _ Ha) as (u1 & v1 & -> & K1).
  destruct (nth_error_split _ _ Hb) as (u2 & v2 & -> & K2).
  destruct (sorted_around u1 v1 a S1) as (_ & A1).
  destruct (sorted_around u2 v2 b S2) as (B2 & _).
  rewrite !filter_app, !length_app in F.
  assert (Z1 : filter below (a :: v1) = []).
  { apply filter_none. intros x [<-|Hx]; unfold below.
    - now rewrite E.
    - rewrite Forall_forall in A1. specialize (A1 x Hx).
      destruct (nlt b x) eqn:Ex; [reflexivity|].
      assert (Cx : comparable x).
      { rewrite Forall_forall in C. apply C, in_or_app. right. now right. }
      unfold nle in A1. now rewrite (nle_trans a x b Cx A1 Ex) in E. }
  assert (Z2 : filter below u2 = u2).
  { apply forallb_filter_id. rewrite forallb_forall. intros x Hx.
    rewrite Forall_forall in B2. specialize (B2 x Hx).
    unfold below. unfold nle in B2. now rewrite B2. }
  rewrite Z1, Z2 in F. simpl in F.
  unfold below at 2 in F. rewrite (nle_refl b) in F. simpl in F.
  pose proof (filter_length_le below u1). lia.
Qed.

(** A series of comparable numbers has one low-median, up to the order. *)
Lemma low_median_unique (series : list num) (m m' : num) :
  Forall comparable series ->
  low_median_of series m -> low_median_of series m' ->
  nle m m' /\ nle m' m.
Proof.
  intros C (l & P & S & H) (l' & P' & S' & H').
  assert (PP : Permutation l l')
    by (eapply Permutation_trans; [exact P|apply Permutation_sym, P']).
  assert (Cl : Forall comparable l)
    by (eapply Permutation_Forall; [apply Permutation_sym, P|exact C]).
  assert (Cl' : Forall comparable l')
    by (eapply Permutation_Forall; [apply Permutation_sym, P'|exact C]).
  split.
  - exact (sorted_nth_le l l' _ m m' Cl PP S S' H H').
  - exact (sorted_nth_le l' l _ m' m Cl' (Permutation_sym PP) S' S H' H).
Qed.

End Sorting.

Section Statistics.

Context {N : Number}.

Lemma middle_in_range {A : Type} (l : list A) :
  l <> [] -> exists x, nth_error l (Nat.div (List.length l) 2) = Some x.
Proof.
  intros H.
  destruct (nth_error l (Nat.div (List.length l) 2)) as [x|] eqn:E;
    [now exists x|].
  apply nth_error_None in E. destruct l as [|a l]; [contradiction|].
  simpl List.length in E.
  pose proof (Nat.div_lt (S (List.length l)) 2). lia.
Qed.

(** On a non-empty array both reads of [detectOutliers] are in range. *)
Lemma detectOutliers_defined (formatted : list Formatted) :
  formatted <> [] -> exists s, detectOutliers formatted = Some s.
Proof.
  intros H. unfold detectOutliers.
  destruct (middle_in_range
              (sort (fun a b => nsub a b) (map typicalPrice formatted)))
    as (m & ->).
  { intros E. apply (f_equal (@List.length _)) in E.
    rewrite sort_length, length_map in E.
    destruct formatted; [contradiction|discriminate]. }
  destruct (middle_in_range
              (sort (fun a b => nsub a b)
                 (map (fun p => nabs (nsub p m))
                    (sort (fun a b => nsub a b)
                       (map typicalPrice formatted)))))
    as (d & ->).
  { intros E. apply (f_equal (@List.length _)) in E.
    rewrite sort_length, length_map, sort_length, length_map in E.
    destruct formatted; [contradiction|discriminate]. }
  eexists. reflexivity.
Qed.

(** The statistics are those of a rearrangement of the typical prices and
    of their absolute deviations, read at the middle index. *)
Lemma detectOutliers_spec (formatted : list Formatted) (s : Stats) :
  detectOutliers formatted = Some s ->
  let sorted := sort (fun a b => nsub a b) (map typicalPrice formatted) in
  let deviations :=
    sort (fun a b => nsub a b)
      (map (fun p => nabs (nsub p (median s))) sorted) in
  nth_error sorted (Nat.div (List.length formatted) 2) = Some (median s)
  /\ nth_error deviations (Nat.div (List.length formatted) 2) = Some (mad s)
  /\ Permutation deviations
       (map (fun c => nabs (nsub (typicalPrice c) (median s))) formatted)
  /\ threshold s
     = nadd (median s) (nmul (nmul lit_5 lit_1_4826) (mad s))
  /\ lowerThreshold s
     = nsub (median s) (nmul (nmul lit_5 lit_1_4826) (mad s)).
Proof.
  unfold detectOutliers. intros H.
  rewrite sort_length, length_map in H.
  destruct (nth_error _ _) as [m|] eqn:Em in H; [|discriminate].
  rewrite sort_length, length_map, sort_length, length_map in H.
  destruct (nth_error _ _) as [d|] eqn:Ed in H; [|discriminate].
  injection H as <-. simpl. repeat split; try assumption.
  eapply Permutation_trans; [apply sort_perm|].
  rewrite <- (map_map typicalPrice (fun p => nabs (nsub p m))).
  apply Permutation_map, sort_perm.
Qed.

Context {L : OrderLaws N}.

(** C3, for inputs without NaN.  On a non-empty input [detectOutliers]
    returns statistics whose thresholds are the median plus and minus
    [5 * 1.4826 * MAD], and every iteration of the loop tests against these
    same statistics.  When no typical price [(high + low + close) / 3] is
    NaN, the median is the element at index [floor(n/2)] of the typical
    prices sorted ascending; when no absolute deviation of a typical price
    from that median is NaN, the MAD is the element at the same index of
    these deviations sorted ascending.  With a NaN among them the
    statistics are returned all the same, but need not be the elements at
    that index of an ascending arrangement ([nan_window]). *)
Theorem detection_statistics (formatted : list Formatted) :
  formatted <> [] ->
  exists s,
    detectOutliers formatted = Some s
    /\ (forall c, typicalPrice c
                  = ndiv (nadd (nadd (high (candle c)) (low (candle c)))
                            (close (candle c))) lit_3)
    /\ (Forall comparable (map typicalPrice formatted) ->
        low_median_of (map typicalPrice formatted) (median s))
    /\ (Forall comparable
          (map (fun c => nabs (nsub (typicalPrice c) (median s))) formatted) ->
        low_median_of
          (map (fun c => nabs (nsub (typicalPrice c) (median s))) formatted)
          (mad s))
    /\ threshold s = nadd (median s) (nmul (nmul lit_5 lit_1_4826) (mad s))
    /\ lowerThreshold s
       = nsub (median s) (nmul (nmul lit_5 lit_1_4826) (mad s))
    /\ (forall k c, nth_error formatted k = Some c ->
          stateAfter formatted (S k)
          = loopBody (Some s) (stateAfter formatted k) c).
Proof.
  intros H. destruct (detectOutliers_defined formatted H) as (s & Hs).
  destruct (detectOutliers_spec formatted s Hs) as (Hm & Hd & Pd & Ht & Hl).
  exists s.
  split; [exact Hs|]. split; [reflexivity|].
  split.
  { intros C. eexists. split; [apply sort_perm|].
    split; [now apply sort_sorted|].
    rewrite length_map. exact Hm. }
  split.
  { intros C. eexists. split; [exact Pd|]. split.
    - apply sort_sorted.
      eapply Permutation_Forall; [|exact C].
      rewrite <- (map_map typicalPrice
                    (fun p => nabs (nsub p (median s)))).
      apply Permutation_map, Permutation_sym, sort_perm.
    - rewrite length_map. exact Hd. }
  split; [exact Ht|]. split; [exact Hl|].
  intros k c Hk. rewrite <- Hs. now apply stateAfter_S.
Qed.

End Statistics.

(** * Exact arithmetic has the order laws *)

Lemma Qltb_lt (a b : Q) : Qltb a b = true <-> (a < b)%Q.
Proof.
  unfold Qltb. rewrite negb_true_iff. split; intros H.
  - apply Qnot_le_lt. intros Hle. apply Qle_bool_iff in Hle. congruence.
  - destruct (Qle_bool b a) eqn:E; [|reflexivity].
    apply Qle_bool_iff in E. exfalso. exact (Qlt_not_le _ _ H E).
Qed.

Lemma Qltb_ge (a b : Q) : Qltb a b = false <-> (b <= a)%Q.
Proof.
  unfold Qltb. rewrite negb_false_iff. apply Qle_bool_iff.
Qed.

Lemma Rational_compare_by_difference (a b : Q) :
  Qltb 0 (Qminus a b) = Qltb b a.
Proof.
  apply eq_true_iff_eq. rewrite !Qltb_lt.
  unfold Qminus. rewrite <- Qlt_minus_iff. reflexivity.
Qed.

Lemma Rational_lt_asym (a b : Q) : Qltb a b = true -> Qltb b a = false.
Proof.
  intros H. apply Qltb_lt in H. apply Qltb_ge. now apply Qlt_le_weak.
Qed.

Lemma Rational_le_trans (a b c : Q) :
  True -> Qltb b a = false -> Qltb c b = false -> Qltb c a = false.
Proof.
  intros _ H1 H2. rewrite Qltb_ge in *. eapply Qle_trans; eassumption.
Qed.

#[export] Instance Rational_order : OrderLaws Rational :=
  @Build_OrderLaws Rational (fun _ => True)
    Rational_compare_by_difference Rational_lt_asym Rational_le_trans.

(** The scenario of the specification in exact arithmetic. *)
Lemma exact_spike_window_answer :
  sanitize exact_spike_window
  = map candle
      [ exact_bar 1000 100 101 99 100 10;
        exact_bar 2000 101 102 100 101 20;
        exact_bar 3000 99 100 98 99 30;
        exact_bar 4000 102 103 101 102 40;
        exact_bar 5000 102 103 101 102 50 ]%Q.
Proof. vm_compute. reflexivity. Qed.

(** * binary64 has the order laws *)

Section Binary64Order.

Local Open Scope Z_scope.

Lemma SFltb_rank (x y : spec_float) :
  x <> S754_nan -> y <> S754_nan ->
  (SFltb x y = true <-> lexlt (rank x) (rank y)).
Proof.
  intros Hx Hy. unfold SFltb.
  destruct x as [sx|sx| |sx mx ex]; [| |contradiction|];
  destruct y as [sy|sy| |sy my ey]; try contradiction;
  try destruct sx; try destruct sy; simpl;
  try (split; [discriminate|lia]); try (split; [lia|reflexivity]).
  all: change (Pos.compare_cont Eq ?a ?b) with (Pos.compare a b).
  all: destruct (Z.compare_spec ex ey);
    try destruct (Pos.compare_spec mx my); simpl;
    split; intros; try discriminate; try reflexivity; try lia.
Qed.

Lemma SFltb_nan_r (x : spec_float) : SFltb x S754_nan = false.
Proof. now destruct x. Qed.

Lemma SF_nan_dec (x : spec_float) : x = S754_nan \/ x <> S754_nan.
Proof. destruct x; (now left) || (right; discriminate). Qed.

Lemma SFltb_asym (x y : spec_float) :
  SFltb x y = true -> SFltb y x = false.
Proof.
  intros H.
  destruct (SF_nan_dec x) as [->|Hx]; [discriminate H|].
  destruct (SF_nan_dec y) as [->|Hy]; [now rewrite SFltb_nan_r in H|].
  apply (SFltb_rank x y Hx Hy) in H.
  destruct (SFltb y x) eqn:E; [|reflexivity].
  apply (SFltb_rank y x Hy Hx) in E.
  unfold lexlt in *.
  destruct (rank x) as [[a1 b1] c1], (rank y) as [[a2 b2] c2].
  lia.
Qed.

Lemma SFle_trans (x y z : spec_float) :
  y <> S754_nan ->
  SFltb y x = false -> SFltb z y = false -> SFltb z x = false.
Proof.
  intros Hy H1 H2.
  destruct (SF_nan_dec x) as [->|Hx]; [apply SFltb_nan_r|].
  destruct (SF_nan_dec z) as [->|Hz]; [reflexivity|].
  destruct (SFltb z x) eqn:E; [|reflexivity].
  apply (SFltb_rank z x Hz Hx) in E.
  assert (N1 : ~ lexlt (rank y) (rank x))
    by (intros C; apply (SFltb_rank y x Hy Hx) in C; congruence).
  assert (N2 : ~ lexlt (rank z) (rank y))
    by (intros C; apply (SFltb_rank z y Hz Hy) in C; congruence).
  unfold lexlt in *.
  destruct (rank x) as [[a1 b1] c1], (rank y) as [[a2 b2] c2],
    (rank z) as [[a3 b3] c3].
  lia.
Qed.

(** A mantissa has as many binary digits as [digits2_pos] says. *)
Lemma digits2_pos_bounds (m : positive) :
  2 ^ (Zpos (digits2_pos m) - 1) <= Zpos m < 2 ^ Zpos (digits2_pos m).
Proof.
  induction m as [m IH|m IH|]; simpl digits2_pos.
  - rewrite Pos2Z.inj_succ.
    replace (Z.succ (Zpos (digits2_pos m)) - 1)
      with (Z.succ (Zpos (digits2_pos m) - 1)) by lia.
    rewrite !Z.pow_succ_r by lia. lia.
  - rewrite Pos2Z.inj_succ.
    replace (Z.succ (Zpos (digits2_pos m)) - 1)
      with (Z.succ (Zpos (digits2_pos m) - 1)) by lia.
    rewrite !Z.pow_succ_r by lia. lia.
  - simpl. lia.
Qed.

Lemma shr_1_m (mrs : shr_record) :
  0 <= shr_m mrs -> shr_m (shr_1 mrs) = shr_m mrs / 2.
Proof.
  destruct mrs as [m r s]. simpl. intros H.
  rewrite <- Z.div2_div.
  destruct m as [|[q|q|]|]; try reflexivity; lia.
Qed.

(** Shifting right by [p] bits divides the mantissa by [2 ^ p]. *)
Lemma iter_pos_shr_1 (p : positive) :
  forall mrs, 0 <= shr_m mrs ->
    shr_m (iter_pos shr_1 p mrs) = shr_m mrs / 2 ^ Zpos p.
Proof.
  induction p as [p IH|p IH|]; intros mrs H; simpl iter_pos.
  - assert (H1 : 0 <= shr_m (shr_1 mrs))
      by (rewrite shr_1_m by assumption; apply Z.div_pos; lia).
    assert (H2 : 0 <= shr_m (iter_pos shr_1 p (shr_1 mrs)))
      by (rewrite IH by assumption; apply Z.div_pos; lia).
    rewrite IH, IH, shr_1_m by assumption.
    rewrite !Z.div_div by lia.
    f_equal. change (Zpos p~1) with (2 * Zpos p + 1).
    replace (2 * Zpos p + 1) with (1 + Zpos p + Zpos p) by lia.
    rewrite !Z.pow_add_r by lia. lia.
  - assert (H2 : 0 <= shr_m (iter_pos shr_1 p mrs))
      by (rewrite IH by assumption; apply Z.div_pos; lia).
    rewrite IH, IH by assumption.
    rewrite !Z.div_div by lia.
    f_equal. change (Zpos p~0) with (2 * Zpos p).
    replace (2 * Zpos p) with (Zpos p + Zpos p) by lia.
    rewrite !Z.pow_add_r by lia. lia.
  - rewrite shr_1_m by assumption. reflexivity.
Qed.

Lemma fexp_ge_emin (e : Z) : emin <= fexp prec emax e.
Proof. unfold fexp. apply Z.le_max_r. Qed.

Lemma shr_record_of_loc_m (m : Z) (l : location) :
  shr_m (shr_record_of_loc m l) = m.
Proof. destruct l as [|[| |]]; reflexivity. Qed.

(** Shifting a positive mantissa to the exponent of its format leaves it
    positive: at least [prec] digits remain. *)
Lemma shr_fexp_pos (m e : Z) (l : location) :
  0 < m -> emin <= e ->
  0 < shr_m (fst (shr_fexp prec emax m e l))
  /\ emin <= snd (shr_fexp prec emax m e l).
Proof.
  intros Hm He. unfold shr_fexp, shr.
  destruct (fexp prec emax (Zdigits2 m + e) - e) as [|p|p] eqn:En; simpl;
    rewrite ?shr_record_of_loc_m; try (split; assumption).
  rewrite iter_pos_shr_1 by (rewrite shr_record_of_loc_m; lia).
  rewrite shr_record_of_loc_m.
  destruct m as [|q|q]; try lia. simpl Zdigits2 in En.
  pose proof (digits2_pos_bounds q) as [Hq _].
  unfold fexp in En.
  assert (Hd : Zpos (digits2_pos q) - 1 = (prec - 1) + Zpos p)
    by (unfold prec, emax, SpecFloat.emin in *; lia).
  rewrite Hd, Z.pow_add_r in Hq by (unfold prec; lia).
  split; [|lia].
  apply Z.lt_le_trans with (2 ^ (prec - 1));
    [apply Z.pow_pos_nonneg; unfold prec; lia|].
  apply Z.div_le_lower_bound; [apply Z.pow_pos_nonneg; lia|].
  rewrite Z.mul_comm. exact Hq.
Qed.

Lemma round_nearest_even_ge (m : Z) (l : location) :
  m <= round_nearest_even m l.
Proof.
  destruct l as [|[| |]]; simpl; try lia. destruct (Z.even m); lia.
Qed.

(** Rounding a positive mantissa gives a number of the given sign, never a
    zero and never NaN. *)
Lemma binary_round_aux_sign (s : bool) (m e : Z) (l : location) :
  0 < m -> emin <= e ->
  (exists m' e', binary_round_aux prec emax s m e l = S754_finite s m' e')
  \/ binary_round_aux prec emax s m e l = S754_infinity s.
Proof.
  intros Hm He. unfold binary_round_aux.
  pose proof (shr_fexp_pos m e l Hm He) as [H1 H2].
  destruct (shr_fexp prec emax m e l) as [mrs' e']. simpl in H1, H2.
  pose proof (round_nearest_even_ge (shr_m mrs') (loc_of_shr_record mrs'))
    as R.
  pose proof (shr_fexp_pos
                (round_nearest_even (shr_m mrs') (loc_of_shr_record mrs'))
                e' loc_Exact ltac:(lia) H2) as [H3 _].
  destruct (shr_fexp prec emax _ e' loc_Exact) as [mrs'' e'']. simpl in H3.
  destruct (shr_m mrs'') as [|q|q]; try lia.
  destruct (e'' <=? emax - prec); [left; eauto|now right].
Qed.

Lemma binary_round_sign (s : bool) (m : positive) (e : Z) :
  emin <= e ->
  (exists m' e', binary_round prec emax s m e = S754_finite s m' e')
  \/ binary_round prec emax s m e = S754_infinity s.
Proof.
  intros He. unfold binary_round.
  destruct (shl_align m e (fexp prec emax (Zpos (digits2_pos m) + e)))
    as [mz ez] eqn:E.
  apply binary_round_aux_sign; [lia|].
  unfold shl_align in E.
  destruct (fexp prec emax (Zpos (digits2_pos m) + e) - e) eqn:D;
    injection E as <- <-; try assumption.
  apply fexp_ge_emin.
Qed.

(** The sign test [> 0] on a normalized integer difference. *)
Lemma SFltb_zero_normalize (d e : Z) :
  emin <= e ->
  SFltb (S754_zero false) (binary_normalize prec emax d e false)
  = (0 <? d).
Proof.
  intros He. destruct d as [|q|q]; simpl binary_normalize.
  - reflexivity.
  - destruct (binary_round_sign false q e He) as [(m' & e' & ->)| ->];
      reflexivity.
  - destruct (binary_round_sign true q e He) as [(m' & e' & ->)| ->];
      reflexivity.
Qed.

Lemma shl_align_value (m : positive) (e e' : Z) :
  e' <= e -> Zpos (fst (shl_align m e e')) = Zpos m * 2 ^ (e - e').
Proof.
  intros H. unfold shl_align.
  destruct (e' - e) as [|p|p] eqn:D; simpl fst.
  - replace (e - e') with 0 by lia. simpl. lia.
  - lia.
  - replace (e - e') with (Zpos p) by lia.
    change (Pos.iter xO m p) with (shift_pos p m).
    rewrite shift_pos_correct, Zpower_pos_nat, Zpower_nat_Z.
    rewrite positive_nat_Z. lia.
Qed.

(** What validity says of a finite binary64 value: its exponent is at
    least [emin], its mantissa has at most 53 bits, and exactly 53 above
    the smallest exponent. *)
Lemma bounded_facts (m : positive) (e : Z) :
  bounded prec emax m e = true ->
  emin <= e /\ Zpos m < 2 ^ 53 /\ (emin < e -> 2 ^ 52 <= Zpos m).
Proof.
  unfold bounded, canonical_mantissa, fexp. intros H.
  apply andb_true_iff in H. destruct H as [H _]. apply Z.eqb_eq in H.
  pose proof (digits2_pos_bounds m) as [L U].
  split; [lia|]. split.
  - apply Z.lt_le_trans with (1 := U). apply Z.pow_le_mono_r; [lia|].
    unfold prec in H. lia.
  - intros He.
    assert (D : Zpos (digits2_pos m) = 53)
      by (unfold prec, emax, SpecFloat.emin in *; lia).
    rewrite D in L. exact L.
Qed.

(** The integer difference of two aligned valid mantissas is positive
    exactly when the second value is below the first. *)
Lemma aligned_difference (sx sy : bool) (mx my : positive) (ex ey : Z) :
  bounded prec emax mx ex = true -> bounded prec emax my ey = true ->
  (0 < cond_Zopp sx (Zpos mx * 2 ^ (ex - Z.min ex ey))
       - cond_Zopp sy (Zpos my * 2 ^ (ey - Z.min ex ey))
   <-> lexlt (rank (S754_finite sy my ey)) (rank (S754_finite sx mx ex))).
Proof.
  intros Bx By.
  destruct (bounded_facts mx ex Bx) as (Ex & Ux & Lx).
  destruct (bounded_facts my ey By) as (Ey & Uy & Ly).
  change (2 ^ 53) with 9007199254740992 in *.
  change (2 ^ 52) with 4503599627370496 in *.
  assert (Px : 0 < 2 ^ (ex - Z.min ex ey)) by (apply Z.pow_pos_nonneg; lia).
  assert (Py : 0 < 2 ^ (ey - Z.min ex ey)) by (apply Z.pow_pos_nonneg; lia).
  destruct (Z.lt_total ex ey) as [Lt|[Eq|Gt]].
  - replace (ex - Z.min ex ey) with 0 in * by lia.
    assert (P2 : 2 <= 2 ^ (ey - Z.min ex ey)).
    { change 2 with (2 ^ 1) at 1. apply Z.pow_le_mono_r; lia. }
    specialize (Ly ltac:(lia)).
    assert (M : Zpos my * 2 <= Zpos my * 2 ^ (ey - Z.min ex ey))
      by (apply Z.mul_le_mono_nonneg_l; lia).
    rewrite Z.pow_0_r, Z.mul_1_r.
    destruct sx, sy; cbn [cond_Zopp rank lexlt]; lia.
  - subst ey. rewrite Z.min_id, Z.sub_diag, Z.pow_0_r, !Z.mul_1_r.
    destruct sx, sy; cbn [cond_Zopp rank lexlt]; lia.
  - replace (ey - Z.min ex ey) with 0 in * by lia.
    assert (P2 : 2 <= 2 ^ (ex - Z.min ex ey)).
    { change 2 with (2 ^ 1) at 1. apply Z.pow_le_mono_r; lia. }
    specialize (Lx ltac:(lia)).
    assert (M : Zpos mx * 2 <= Zpos mx * 2 ^ (ex - Z.min ex ey))
      by (apply Z.mul_le_mono_nonneg_l; lia).
    rewrite Z.pow_0_r, Z.mul_1_r.
    destruct sx, sy; cbn [cond_Zopp rank lexlt]; lia.
Qed.

(** On valid values [x - y > 0] exactly when [y < x]; with NaN on either
    side both are false. *)
Lemma SF64sub_sign (x y : spec_float) :
  valid_binary x = true -> valid_binary y = true ->
  SFltb (S754_zero false) (SF64sub x y) = SFltb y x.
Proof.
  intros Vx Vy.
  destruct x as [sx|sx| |sx mx ex]; destruct y as [sy|sy| |sy my ey];
    try (try destruct sx; try destruct sy; reflexivity).
  simpl in Vx, Vy.
  destruct (bounded_facts mx ex Vx) as (Ex & _).
  destruct (bounded_facts my ey Vy) as (Ey & _).
  unfold SF64sub, SFsub.
  rewrite SFltb_zero_normalize by lia.
  rewrite !shl_align_value by lia.
  apply eq_true_iff_eq. rewrite Z.ltb_lt.
  rewrite SFltb_rank by discriminate.
  exact (aligned_difference sx sy mx my ex ey Vx Vy).
Qed.

End Binary64Order.

Lemma not_nan_spec (x : float) : not_nan x -> Prim2SF x <> S754_nan.
Proof.
  unfold not_nan. rewrite FloatAxioms.eqb_spec. intros H E.
  rewrite E in H. discriminate H.
Qed.

Lemma Binary64_compare_by_difference (a b : float) :
  PrimFloat.ltb 0 (PrimFloat.sub a b) = PrimFloat.ltb b a.
Proof.
  rewrite !FloatAxioms.ltb_spec, FloatAxioms.sub_spec.
  change (Prim2SF 0) with (S754_zero false).
  apply SF64sub_sign; apply Prim2SF_valid.
Qed.

Lemma Binary64_lt_asym (a b : float) :
  PrimFloat.ltb a b = true -> PrimFloat.ltb b a = false.
Proof. rewrite !FloatAxioms.ltb_spec. apply SFltb_asym. Qed.

Lemma Binary64_le_trans (a b c : float) :
  not_nan b ->
  PrimFloat.ltb b a = false -> PrimFloat.ltb c b = false ->
  PrimFloat.ltb c a = false.
Proof.
  intros Hb. rewrite !FloatAxioms.ltb_spec.
  apply SFle_trans, not_nan_spec, Hb.
Qed.

#[export] Instance Binary64_order : OrderLaws Binary64 :=
  @Build_OrderLaws Binary64 not_nan
    Binary64_compare_by_difference Binary64_lt_asym Binary64_le_trans.

Lemma detection_statistics_on_spike :
  exists s : @Stats Binary64,
    detectOutliers spike_window = Some s
    /\ low_median_of (map typicalPrice spike_window) (median s)
    /\ low_median_of
         (map (fun c => nabs (nsub (typicalPrice c) (median s)))
            spike_window)
         (mad s)
    /\ threshold s = nadd (median s) (nmul (nmul lit_5 lit_1_4826) (mad s))
    /\ lowerThreshold s
       = nsub (median s) (nmul (nmul lit_5 lit_1_4826) (mad s)).
Proof.
  destruct (@detection_statistics Binary64 Binary64_order spike_window)
    as (s & H1 & _ & H3 & H4 & H5 & H6 & _); [discriminate|].
  exists s. split; [exact H1|]. split; [|split; [|split; assumption]].
  - apply H3. repeat (constructor; [reflexivity|]). constructor.
  - apply H4. vm_compute in H1. injection H1 as <-.
    repeat (constructor; [reflexivity|]). constructor.
Defined.

(** The statistics of the sample windows.  [calm_window] has four candles:
    its median is the element at index 2 of 99, 100, 101, 102. *)
(** C3 fails on [nan_window].  The comparator gives NaN against the NaN of
    the second candle, the sort leaves the typical prices 5, NaN, 2, 5 and
    the deviations 3, NaN, 0, 3 as they are, and the median is 2 and the
    MAD 0: the smallest typical price and the smallest deviation, not the
    elements at index 2 of any ascending arrangement. *)
Lemma nan_window_statistics_out_of_rank :
  map typicalPrice nan_window = [5; nan; 2; 5]%float
  /\ detectOutliers nan_window = Some (@mkStats Binary64 2 0 2 2)%float
  /\ ~ @low_median_of Binary64 (map typicalPrice nan_window) 2%float
  /\ ~ @low_median_of Binary64
         (map (fun c : @Formatted Binary64 =>
                 PrimFloat.abs (PrimFloat.sub (@typicalPrice Binary64 c) 2))
            nan_window)
         0%float.
Proof.
  split; [vm_compute; reflexivity|].
  split; [vm_compute; reflexivity|].
  split; intros H.
  - pose proof (@low_median_few_above Binary64 _ _ H eq_refl) as C.
    vm_compute in C. lia.
  - pose proof (@low_median_few_above Binary64 _ _ H eq_refl) as C.
    vm_compute in C. lia.
Qed.

Lemma sample_statistics :
  option_map median (detectOutliers calm_window) = Some 101%float
  /\ option_map mad (detectOutliers calm_window) = Some 1%float
  /\ option_map median (detectOutliers spike_window) = Some 101%float
  /\ option_map mad (detectOutliers spike_window) = Some 1%float
  /\ option_map median (detectOutliers flat_window) = Some 100%float
  /\ option_map mad (detectOutliers flat_window) = Some 0%float.
Proof. repeat split; vm_compute; reflexivity. Qed.

(** The scenario of the specification: the fifth candle takes the prices of
    the fourth, the first four are untouched. *)
Lemma spike_window_answer :
  sanitize spike_window
  = map candle
      [ bar 1000 100 101 99 100 10;
        bar 2000 101 102 100 101 20;
        bar 3000 99 100 98 99 30;
        bar 4000 102 103 101 102 40;
        bar 5000 102 103 101 102 50 ]%float.
Proof. vm_compute. reflexivity. Qed.

(** * binary64: a zero deviation collapses the band *)

Section ZeroDeviation.

Lemma SFcompare_same_l (x y z : spec_float) :
  same_value x y -> SFcompare x z = SFcompare y z.
Proof.
  intros [->|(a & b & -> & ->)]; [reflexivity|]. now destruct z.
Qed.

Lemma SFcompare_same_r (x y z : spec_float) :
  same_value x y -> SFcompare z x = SFcompare z y.
Proof.
  intros [->|(a & b & -> & ->)]; [reflexivity|]. now destruct z.
Qed.

Lemma SFcompare_refl (x : spec_float) :
  x <> S754_nan -> SFcompare x x = Some Eq.
Proof.
  destruct x as [s|s| |s m e]; intros H; simpl.
  - reflexivity.
  - now destruct s.
  - contradiction.
  - rewrite Z.compare_refl, Pos.compare_cont_refl. now destruct s.
Qed.

Lemma SF64add_zero (x : spec_float) (b : bool) :
  same_value (SF64add x (S754_zero b)) x.
Proof.
  destruct x as [s|s| |s m e]; simpl.
  - right. destruct s, b; simpl; eauto.
  - now left.
  - now left.
  - now left.
Qed.

Lemma SF64sub_zero (x : spec_float) (b : bool) :
  same_value (SF64sub x (S754_zero b)) x.
Proof.
  destruct x as [s|s| |s m e]; simpl.
  - right. destruct s, b; simpl; eauto.
  - now left.
  - now left.
  - now left.
Qed.

Lemma eqb_zero (x : float) :
  PrimFloat.eqb x 0 = true -> exists b, Prim2SF x = S754_zero b.
Proof.
  rewrite FloatAxioms.eqb_spec. change (Prim2SF 0) with (S754_zero false).
  destruct (Prim2SF x) as [s|s| |s m e]; unfold SFeqb; simpl.
  - now exists s.
  - now destruct s.
  - discriminate.
  - now destruct s.
Qed.

(** [5 * 1.4826 * mad] is a zero when [mad] is. *)
Lemma band_width_zero (d : float) :
  PrimFloat.eqb d 0 = true ->
  exists b,
    Prim2SF (PrimFloat.mul (PrimFloat.mul 5 0x1.7b8bac710cb29p+0) d)
    = S754_zero b.
Proof.
  intros H. destruct (eqb_zero d H) as (b & Hb).
  rewrite FloatAxioms.mul_spec, Hb.
  destruct (Prim2SF (PrimFloat.mul 5 0x1.7b8bac710cb29p+0))
    as [s|s| |s m e] eqn:E; vm_compute in E; try discriminate E.
  exists (xorb s b). reflexivity.
Qed.

(** An absolute deviation from NaN is NaN, not zero. *)
Lemma deviation_zero_not_nan (p m : float) :
  PrimFloat.eqb (PrimFloat.abs (PrimFloat.sub p m)) 0 = true ->
  Prim2SF m <> S754_nan.
Proof.
  rewrite FloatAxioms.eqb_spec, FloatAxioms.abs_spec, FloatAxioms.sub_spec. intros H Hm. rewrite Hm in H.
  destruct (Prim2SF p); discriminate H.
Qed.

End ZeroDeviation.

Lemma mad_is_a_deviation {N : Number} (formatted : list Formatted)
    (s : Stats) :
  detectOutliers formatted = Some s ->
  exists c, In c formatted
            /\ mad s = nabs (nsub (typicalPrice c) (median s)).
Proof.
  intros H. destruct (detectOutliers_spec formatted s H) as (_ & Hd & P & _).
  apply nth_error_In in Hd. apply (Permutation_in _ P) in Hd.
  apply in_map_iff in Hd. destruct Hd as (c & E & Hc). now exists c.
Qed.

Section ZeroDeviationBand.

Variable formatted : list (@Formatted Binary64).
Variable s : @Stats Binary64.
Hypothesis stats_of_input : detectOutliers formatted = Some s.
Hypothesis mad_zero : PrimFloat.eqb (mad s) 0 = true.

Lemma median_not_nan : Prim2SF (median s) <> S754_nan.
Proof.
  destruct (mad_is_a_deviation formatted s stats_of_input) as (c & _ & E).
  pose proof mad_zero as Z. rewrite E in Z.
  exact (deviation_zero_not_nan _ _ Z).
Qed.

Lemma threshold_same : same_value (Prim2SF (threshold s)) (Prim2SF (median s)).
Proof.
  destruct (detectOutliers_spec formatted s stats_of_input)
    as (_ & _ & _ & -> & _).
  destruct (band_width_zero (mad s) mad_zero) as (b & Hb).
  change (same_value
            (Prim2SF (PrimFloat.add (median s)
                        (PrimFloat.mul
                           (PrimFloat.mul 5 0x1.7b8bac710cb29p+0) (mad s))))
            (Prim2SF (median s))).
  rewrite FloatAxioms.add_spec, Hb. apply SF64add_zero.
Qed.

Lemma lowerThreshold_same :
  same_value (Prim2SF (lowerThreshold s)) (Prim2SF (median s)).
Proof.
  destruct (detectOutliers_spec formatted s stats_of_input)
    as (_ & _ & _ & _ & ->).
  destruct (band_width_zero (mad s) mad_zero) as (b & Hb).
  change (same_value
            (Prim2SF (PrimFloat.sub (median s)
                        (PrimFloat.mul
                           (PrimFloat.mul 5 0x1.7b8bac710cb29p+0) (mad s))))
            (Prim2SF (median s))).
  rewrite FloatAxioms.sub_spec, Hb. apply SF64sub_zero.
Qed.

Lemma above_median_flagged (c : @Formatted Binary64) :
  PrimFloat.ltb (median s) (high (candle c)) = true
  \/ PrimFloat.ltb (low (candle c)) (median s) = true ->
  isOutlier (Some s) c = true.
Proof.
  assert (T : forall z, SFcompare (Prim2SF (threshold s)) z
                        = SFcompare (Prim2SF (median s)) z)
    by (intros z; apply SFcompare_same_l, threshold_same).
  assert (B : forall z, SFcompare z (Prim2SF (lowerThreshold s))
                        = SFcompare z (Prim2SF (median s)))
    by (intros z; apply SFcompare_same_r, lowerThreshold_same).
  unfold isOutlier. simpl. rewrite !FloatAxioms.ltb_spec. unfold SFltb.
  rewrite !T, !B.
  intros [H|H]; rewrite H; rewrite ?orb_true_r; reflexivity.
Qed.

(** C10.  When the MAD of the input is zero both thresholds are equal to
    the median, every candle whose high is above the median or whose low is
    below it is flagged, and once a candle is stored (that is, from the
    second position on) such a candle is emitted with the stored candle's
    open, high, low and close, and with its own time and volume. *)
Theorem zero_mad_band_collapses :
  PrimFloat.eqb (threshold s) (median s) = true
  /\ PrimFloat.eqb (lowerThreshold s) (median s) = true
  /\ (forall c : @Formatted Binary64,
        PrimFloat.ltb (median s) (high (candle c)) = true
        \/ PrimFloat.ltb (low (candle c)) (median s) = true ->
        flagged formatted c = true)
  /\ (forall (k : nat) (c p : @Formatted Binary64),
        nth_error formatted k = Some c ->
        previousValidCandle (stateAfter formatted k) = Some p ->
        PrimFloat.ltb (median s) (high (candle c)) = true
        \/ PrimFloat.ltb (low (candle c)) (median s) = true ->
        exists o,
          nth_error (sanitize formatted) k = Some o
          /\ open o = open (candle p) /\ high o = high (candle p)
          /\ low o = low (candle p) /\ close o = close (candle p)
          /\ time o = time (candle c) /\ volume o = volume (candle c))
  /\ (forall (k : nat) (c : @Formatted Binary64),
        nth_error formatted (S k) = Some c ->
        PrimFloat.ltb (median s) (high (candle c)) = true
        \/ PrimFloat.ltb (low (candle c)) (median s) = true ->
        exists p o,
          previousValidCandle (stateAfter formatted (S k)) = Some p
          /\ nth_error (sanitize formatted) (S k) = Some o
          /\ open o = open (candle p) /\ high o = high (candle p)
          /\ low o = low (candle p) /\ close o = close (candle p)
          /\ time o = time (candle c) /\ volume o = volume (candle c)).
Proof.
  assert (R : forall (k : nat) (c p : @Formatted Binary64),
        nth_error formatted k = Some c ->
        previousValidCandle (stateAfter formatted k) = Some p ->
        PrimFloat.ltb (median s) (high (candle c)) = true
        \/ PrimFloat.ltb (low (candle c)) (median s) = true ->
        exists o,
          nth_error (sanitize formatted) k = Some o
          /\ open o = open (candle p) /\ high o = high (candle p)
          /\ low o = low (candle p) /\ close o = close (candle p)
          /\ time o = time (candle c) /\ volume o = volume (candle c)).
  { intros k c p Hk Hp H.
    rewrite (sanitize_nth formatted k c Hk), Hp, stats_of_input.
    unfold candleToAdd. rewrite (above_median_flagged c H).
    eexists. split; [reflexivity|]. repeat split. }
  split; [|split; [|split; [|split; [exact R|]]]].
  - rewrite FloatAxioms.eqb_spec. unfold SFeqb.
    rewrite (SFcompare_same_l _ _ _ threshold_same).
    now rewrite (SFcompare_refl _ median_not_nan).
  - rewrite FloatAxioms.eqb_spec. unfold SFeqb.
    rewrite (SFcompare_same_l _ _ _ lowerThreshold_same).
    now rewrite (SFcompare_refl _ median_not_nan).
  - intros c H. unfold flagged. rewrite stats_of_input.
    now apply above_median_flagged.
  - intros k c Hk H.
    destruct (stateAfter_previous_Some formatted k) as (p & Hp).
    { assert (S k < List.length formatted)
        by (apply nth_error_Some; congruence).
      lia. }
    destruct (R (S k) c p Hk Hp H) as (o & Ho).
    exists p, o. split; [exact Hp|exact Ho].
Qed.

End ZeroDeviationBand.

Lemma zero_mad_band_collapses_on_flat_window :
  exists s : @Stats Binary64,
    detectOutliers flat_window = Some s
    /\ PrimFloat.eqb (threshold s) (median s) = true
    /\ PrimFloat.eqb (lowerThreshold s) (median s) = true
    /\ flagged flat_window (bar 3000 100 100.5 100 100 30) = true
    /\ exists o,
         nth_error (sanitize flat_window) 2 = Some o
         /\ open o = 100%float /\ high o = 100%float
         /\ low o = 100%float /\ close o = 100%float
         /\ time o = ValidDate 3000 /\ volume o = 30%float.
Proof.
  destruct (detectOutliers flat_window) as [s|] eqn:E;
    [|vm_compute in E; discriminate E].
  assert (Z : PrimFloat.eqb (mad s) 0 = true).
  { vm_compute in E. injection E as <-. reflexivity. }
  destruct (zero_mad_band_collapses flat_window s E Z)
    as (H1 & H2 & H3 & H4 & _).
  exists s. split; [reflexivity|]. split; [exact H1|]. split; [exact H2|].
  assert (A : PrimFloat.ltb (median s) 100.5 = true
              \/ PrimFloat.ltb 100 (median s) = true).
  { left. vm_compute in E. injection E as <-. reflexivity. }
  split.
  - exact (H3 (bar 3000 100 100.5 100 100 30) A).
  - exact (H4 2 (bar 3000 100 100.5 100 100 30)
              (bar 2000 100 100 100 100 20) eq_refl eq_refl A).
Defined.

(** * More on the replacement loop *)

Section LoopInvariants.

Context {N : Number}.
Variable formatted : list Formatted.

(** After every iteration the candle just pushed carries the prices of
    [previousValidCandle]. *)
Lemma pushed_has_previous_prices (i : nat) (c : Formatted) :
  nth_error formatted i = Some c ->
  exists p o,
    previousValidCandle (stateAfter formatted (S i)) = Some p
    /\ nth_error (sanitize formatted) i = Some o
    /\ open o = open (candle p) /\ high o = high (candle p)
    /\ low o = low (candle p) /\ close o = close (candle p).
Proof.
  intros H.
  rewrite (stateAfter_previous_S formatted i c H).
  rewrite (sanitize_nth formatted i c H).
  unfold nextValidCandle, candleToAdd.
  destruct (previousValidCandle (stateAfter formatted i)) as [q|].
  - destruct (isOutlier (detectOutliers formatted) c);
      do 2 eexists; repeat split; reflexivity.
  - do 2 eexists; repeat split; reflexivity.
Qed.

(** X3.  Every flagged candle after the first repeats the prices of the
    answer's previous position, whether that position was itself corrected
    or not, and keeps its own time and volume. *)
Theorem flagged_repeats_previous_answer (i : nat) (c : Formatted) :
  nth_error formatted (S i) = Some c ->
  flagged formatted c = true ->
  exists o_prev o_cur,
    nth_error (sanitize formatted) i = Some o_prev
    /\ nth_error (sanitize formatted) (S i) = Some o_cur
    /\ open o_cur = open o_prev /\ high o_cur = high o_prev
    /\ low o_cur = low o_prev /\ close o_cur = close o_prev
    /\ time o_cur = time (candle c) /\ volume o_cur = volume (candle c).
Proof.
  intros H F.
  destruct (nth_error formatted i) as [ci|] eqn:Hi.
  2:{ apply nth_error_None in Hi.
      assert (S i < List.length formatted)
        by (apply nth_error_Some; congruence).
      lia. }
  destruct (pushed_has_previous_prices i ci Hi)
    as (p & o & Hp & Ho & Eo & Eh & El & Ec).
  exists o. eexists. split; [exact Ho|].
  rewrite (sanitize_nth formatted (S i) c H), Hp.
  unfold candleToAdd. unfold flagged in F. rewrite F.
  split; [reflexivity|]. simpl. rewrite Eo, Eh, El, Ec. repeat split.
Qed.

(** Flagged candles leave [previousValidCandle] where it is. *)
Lemma previous_kept_through_flagged (j d : nat) (p : Formatted) :
  previousValidCandle (stateAfter formatted (S j)) = Some p ->
  (forall m c, j < m -> m <= j + d -> nth_error formatted m = Some c ->
               flagged formatted c = true) ->
  j + d < List.length formatted ->
  previousValidCandle (stateAfter formatted (S (j + d))) = Some p.
Proof.
  intros Hp. induction d as [|d IH]; intros Hf Hl.
  - now rewrite Nat.add_0_r.
  - replace (j + S d) with (S (j + d)) in * by lia.
    destruct (nth_error formatted (S (j + d))) as [c|] eqn:E;
      [|apply nth_error_None in E; lia].
    rewrite (stateAfter_previous_S formatted (S (j + d)) c E).
    rewrite IH; [|intros m c' H1 H2; apply Hf; lia|lia].
    unfold nextValidCandle.
    assert (F : flagged formatted c = true) by (apply (Hf (S (j + d))); [lia|lia|exact E]).
    unfold flagged in F. now rewrite F.
Qed.

(** X1.  The candle a correction copies from: the most recent earlier
    candle that is not flagged, or the first candle when every earlier
    candle after it is flagged.  That candle is what [previousValidCandle]
    holds when the later candle is reached; if the later candle is flagged
    it is emitted with that candle's open, high, low and close and its own
    time and volume, and otherwise as it is. *)
Theorem correction_source (j i : nat) (p c : Formatted) :
  j < i ->
  nth_error formatted j = Some p ->
  nth_error formatted i = Some c ->
  j = 0 \/ flagged formatted p = false ->
  (forall m cm, j < m -> m < i -> nth_error formatted m = Some cm ->
                flagged formatted cm = true) ->
  previousValidCandle (stateAfter formatted i) = Some p
  /\ exists o,
       nth_error (sanitize formatted) i = Some o
       /\ time o = time (candle c) /\ volume o = volume (candle c)
       /\ (flagged formatted c = true ->
           open o = open (candle p) /\ high o = high (candle p)
           /\ low o = low (candle p) /\ close o = close (candle p))
       /\ (flagged formatted c = false -> o = candle c).
Proof.
  intros Hji Hp Hc Hj Hrun.
  assert (Hl : i < List.length formatted)
    by (apply nth_error_Some; congruence).
  assert (P0 : previousValidCandle (stateAfter formatted (S j)) = Some p).
  { destruct Hj as [->|F].
    - destruct formatted as [|c0 l]; [discriminate Hp|].
      injection Hp as ->. reflexivity.
    - now apply stateAfter_previous_accepted. }
  assert (P : previousValidCandle (stateAfter formatted i) = Some p).
  { replace i with (S (j + (i - S j))) by lia.
    apply previous_kept_through_flagged; [exact P0| |lia].
    intros m cm H1 H2. apply Hrun; lia. }
  split; [exact P|].
  rewrite (sanitize_nth formatted i c Hc), P.
  unfold candleToAdd, flagged.
  destruct (isOutlier (detectOutliers formatted) c);
    (eexists; split; [reflexivity|]); repeat split; discriminate.
Qed.

(** When the first candle is not flagged, [previousValidCandle] never holds
    a flagged candle. *)
Lemma previous_never_flagged (c0 : Formatted) :
  nth_error formatted 0 = Some c0 ->
  flagged formatted c0 = false ->
  forall k p,
    previousValidCandle (stateAfter formatted k) = Some p ->
    flagged formatted p = false.
Proof.
  intros H0 F0 k. induction k as [|k IH]; intros p Hp.
  - discriminate Hp.
  - destruct (nth_error formatted k) as [c|] eqn:E.
    + rewrite (stateAfter_previous_S formatted k c E) in Hp.
      unfold nextValidCandle in Hp.
      destruct (previousValidCandle (stateAfter formatted k)) as [q|] eqn:Eq.
      * destruct (isOutlier (detectOutliers formatted) c) eqn:Fc.
        -- injection Hp as <-. now apply IH.
        -- injection Hp as <-. exact Fc.
      * injection Hp as <-.
        destruct k as [|k].
        -- rewrite H0 in E. injection E as <-. exact F0.
        -- destruct (stateAfter_previous_Some formatted k) as (q & Hq).
           { assert (S k < List.length formatted)
               by (apply nth_error_Some; congruence). lia. }
           congruence.
    + apply IH. unfold stateAfter in *.
      apply nth_error_None in E.
      rewrite firstn_all2 in Hp by lia. rewrite firstn_all2 by lia.
      exact Hp.
Qed.

(** X2.  When the first candle is not flagged, no candle of the answer is
    outside the band: each one passes the test of the loop with the
    thresholds of the input. *)
Theorem answer_within_band (c0 : Formatted) :
  nth_error formatted 0 = Some c0 ->
  flagged formatted c0 = false ->
  forall i o b,
    nth_error (sanitize formatted) i = Some o ->
    isOutlier (detectOutliers formatted) {| candle := o; original := b |}
    = false.
Proof.
  intros H0 F0 i o b Ho.
  destruct (nth_error formatted i) as [c|] eqn:E.
  2:{ apply nth_error_None in E. rewrite <- sanitize_length in E.
      apply nth_error_None in E. congruence. }
  rewrite (sanitize_nth formatted i c E) in Ho. injection Ho as <-.
  assert (I : forall x y : Formatted,
             high (candle x) = high (candle y) ->
             low (candle x) = low (candle y) ->
             isOutlier (detectOutliers formatted) x
             = isOutlier (detectOutliers formatted) y).
  { intros x y Hh Hl. unfold isOutlier.
    destruct (detectOutliers formatted); [|reflexivity].
    now rewrite Hh, Hl. }
  unfold candleToAdd.
  destruct (previousValidCandle (stateAfter formatted i)) as [p|] eqn:Ep.
  - destruct (isOutlier (detectOutliers formatted) c) eqn:Fc.
    + rewrite (I _ p) by reflexivity.
      exact (previous_never_flagged c0 H0 F0 i p Ep).
    + now rewrite (I _ c) by reflexivity.
  - destruct i as [|i].
    + rewrite H0 in E. injection E as <-.
      now rewrite (I _ c0) by reflexivity.
    + destruct (stateAfter_previous_Some formatted i) as (q & Hq).
      { assert (S i < List.length formatted)
          by (apply nth_error_Some; congruence). lia. }
      congruence.
Qed.

End LoopInvariants.

(** * More on the statistics *)

Section StatisticsFacts.

Context {N : Number}.

Lemma detectOutliers_nil : @detectOutliers N [] = None.
Proof. reflexivity. Qed.

(** X4.  The statistics exist exactly for a non-empty input, and then the
    median is the typical price of one of the candles and the MAD is the
    absolute deviation of one of the candles from that median: neither is
    interpolated between two values. *)
Theorem statistics_are_sample_values (formatted : list Formatted) :
  (detectOutliers formatted = None <-> formatted = [])
  /\ (forall s, detectOutliers formatted = Some s ->
        (exists c, In c formatted /\ median s = typicalPrice c)
        /\ (exists c, In c formatted
                      /\ mad s = nabs (nsub (typicalPrice c) (median s)))).
Proof.
  split.
  - split.
    + intros H. destruct formatted as [|c l]; [reflexivity|].
      destruct (detectOutliers_defined (c :: l)) as (s & Hs);
        [discriminate|congruence].
    + intros ->. reflexivity.
  - intros s Hs. split; [|now apply mad_is_a_deviation].
    destruct (detectOutliers_spec formatted s Hs) as (Hm & _).
    apply nth_error_In in Hm.
    apply (Permutation_in _ (sort_perm _ _)) in Hm.
    apply in_map_iff in Hm. destruct Hm as (c & E & Hc). now exists c.
Qed.

Context {L : OrderLaws N}.

(** X5.  The median does not depend on the order in which the candles
    arrive: two arrangements of the same candles, none with a NaN typical
    price, have medians that compare equal. *)
Theorem median_order_independent (formatted formatted' : list Formatted)
    (s s' : Stats) :
  Permutation formatted formatted' ->
  Forall comparable (map typicalPrice formatted) ->
  detectOutliers formatted = Some s ->
  detectOutliers formatted' = Some s' ->
  nlt (median s) (median s') = false /\ nlt (median s') (median s) = false.
Proof.
  intros P C Hs Hs'.
  assert (P' : Permutation (map typicalPrice formatted')
                 (map typicalPrice formatted))
    by (apply Permutation_map, Permutation_sym, P).
  assert (C' : Forall comparable (map typicalPrice formatted'))
    by (eapply Permutation_Forall; [apply Permutation_sym, P'|exact C]).
  destruct (detectOutliers_spec formatted s Hs) as (Hm & _).
  destruct (detectOutliers_spec formatted' s' Hs') as (Hm' & _).
  assert (M : low_median_of (map typicalPrice formatted) (median s)).
  { eexists. split; [apply sort_perm|]. split; [now apply sort_sorted|].
    rewrite length_map. exact Hm. }
  assert (M' : low_median_of (map typicalPrice formatted) (median s')).
  { eexists. split; [eapply Permutation_trans; [apply sort_perm|exact P']|].
    split; [now apply sort_sorted|].
    rewrite length_map, (Permutation_length P). exact Hm'. }
  destruct (low_median_unique _ _ _ C M M') as (A & B).
  split; [exact B|exact A].
Qed.

End StatisticsFacts.

(** * The configuration *)

(** X7.  The two copies of the configuration agree on every environment.
    The test network is chosen exactly when [BINANCE_TESTNET] is the string
    ["true"]; then the client gets the test key, the test secret and the
    test URLs, and otherwise the production key and secret and no URLs:
    credentials and URLs are never mixed. *)
Theorem configuration_agrees (env : Env) :
  keys_binance env = binanceConfig env
  /\ (testnet (binanceConfig env) = true
      <-> env "BINANCE_TESTNET"%string = Some "true"%string)
  /\ (env "BINANCE_TESTNET"%string = Some "true"%string ->
      clientOptions (binanceConfig env)
      = {| APIKEY := env "BINANCE_TESTNET_API_KEY"%string;
           APISECRET := env "BINANCE_TESTNET_API_SECRET"%string;
           urls := Some {| base := "https://testnet.binance.vision/api/";
                           stream := "wss://testnet.binance.vision/ws/";
                           combinedStream :=
                             "wss://testnet.binance.vision/stream?streams=" |}
        |})
  /\ (env "BINANCE_TESTNET"%string <> Some "true"%string ->
      clientOptions (binanceConfig env)
      = {| APIKEY := env "BINANCE_API_KEY"%string;
           APISECRET := env "BINANCE_API_SECRET"%string;
           urls := None |}).
Proof.
  assert (T : strictEquals (env "BINANCE_TESTNET"%string) "true" = true
              <-> env "BINANCE_TESTNET"%string = Some "true"%string).
  { unfold strictEquals. destruct (env "BINANCE_TESTNET"%string) as [v|].
    - rewrite String.eqb_eq. split; congruence.
    - split; discriminate. }
  split; [reflexivity|]. split; [exact T|]. split.
  - intros H. apply T in H. unfold clientOptions, binanceConfig. simpl.
    now rewrite H.
  - intros H. unfold clientOptions, binanceConfig. simpl.
    destruct (strictEquals (env "BINANCE_TESTNET"%string) "true") eqn:E;
      [|reflexivity].
    exfalso. apply H, T. reflexivity.
Qed.

(** * The map and its keys *)

Lemma map_get_set_same {V : Type} (key : string) (value : V)
    (m : StringMap V) :
  map_get key (map_set key value m) = Some value.
Proof. simpl. now rewrite String.eqb_refl. Qed.

Lemma map_get_set_other {V : Type} (key key' : string) (value : V)
    (m : StringMap V) :
  key <> key' -> map_get key (map_set key' value m) = map_get key m.
Proof.
  intros H. simpl. destruct (String.eqb key key') eqn:E; [|reflexivity].
  apply String.eqb_eq in E. contradiction.
Qed.

Lemma map_has_set {V : Type} (key key' : string) (value : V)
    (m : StringMap V) :
  map_has key m = true -> map_has key (map_set key' value m) = true.
Proof.
  unfold map_has. simpl. now destruct (String.eqb key key').
Qed.

Lemma append_assoc (a b c : string) :
  ((a ++ b) ++ c = a ++ (b ++ c))%string.
Proof. induction a as [|x a IH]; simpl; [reflexivity|now rewrite IH]. Qed.

(** Moving an underscore across the two parts does not change the key. *)
Lemma cacheKey_shift (a b c : string) :
  cacheKey (a ++ "_" ++ b) c = cacheKey a (b ++ "_" ++ c).
Proof. unfold cacheKey. now rewrite append_assoc. Qed.

(** X8.  The cache key tells the symbol and the interval apart as long as
    symbols hold no underscore. *)
Theorem cacheKey_injective (symbol symbol' interval interval' : string) :
  occurs "_"%char symbol = false ->
  occurs "_"%char symbol' = false ->
  cacheKey symbol interval = cacheKey symbol' interval' ->
  symbol = symbol' /\ interval = interval'.
Proof.
  unfold cacheKey. revert symbol'.
  induction symbol as [|a s IH]; intros [|a' s'] H H' E; simpl in *.
  - injection E as E. now split.
  - injection E as E _. subst a'. rewrite Ascii.eqb_refl in H'.
    discriminate H'.
  - injection E as E _. subst a. rewrite Ascii.eqb_refl in H.
    discriminate H.
  - injection E as Ea E. subst a'.
    apply orb_false_iff in H. apply orb_false_iff in H'.
    destruct (IH s' (proj2 H) (proj2 H') E) as (-> & ->). now split.
Qed.

Section HandlerFacts.

Context {N : Number}.
Variable parseFloat : string -> num.
Variable typeErrorMessage : string.

Lemma react_has (server : Server) (e : Event) (key : string) :
  map_has key (activeConnections server) = true ->
  map_has key (activeConnections (react parseFloat typeErrorMessage server e)) = true.
Proof.
  intros H. destruct e as [s a|s c|s i a|s i ch]; simpl.
  - unfold getRealTimePrice.
    destruct (map_has s (activeConnections server)); [exact H|].
    destruct a; exact H.
  - now apply map_has_set.
  - destruct a as [[rows|]|m| |]; simpl; [now apply map_has_set|exact H..].
  - now apply map_has_set.
Qed.

Lemma react_subscriptions (server : Server) (e : Event) :
  exists more,
    subscriptions (react parseFloat typeErrorMessage server e) = subscriptions server ++ more.
Proof.
  destruct e as [s a|s c|s i a|s i ch]; simpl.
  - unfold getRealTimePrice.
    destruct (map_has s (activeConnections server));
      [exists []; now rewrite app_nil_r|].
    destruct a; simpl; eauto.
  - exists []. now rewrite app_nil_r.
  - destruct a as [[rows|]|m| |]; simpl; eauto;
      exists []; now rewrite app_nil_r.
  - exists []. now rewrite app_nil_r.
Qed.

(** An event changes no key but the one it writes. *)
Lemma react_get (server : Server) (e : Event) (key : string) :
  written e <> Some key ->
  map_get key (activeConnections (react parseFloat typeErrorMessage server e))
  = map_get key (activeConnections server).
Proof.
  intros H. destruct e as [s a|s c|s i a|s i ch]; simpl in *.
  - unfold getRealTimePrice.
    destruct (map_has s (activeConnections server)); [reflexivity|].
    now destruct a.
  - apply map_get_set_other. congruence.
  - destruct a as [[rows|]|m| |]; simpl; try reflexivity.
    apply map_get_set_other. congruence.
  - apply map_get_set_other. congruence.
Qed.

Lemma run_get (events : list Event) :
  forall (server : Server) (key : string),
    Forall (fun e => written e <> Some key) events ->
    map_get key (activeConnections (fold_left (react parseFloat typeErrorMessage) events server))
    = map_get key (activeConnections server).
Proof.
  induction events as [|e events IH]; intros server key H; simpl;
    [reflexivity|].
  inversion H as [|? ? He Hes]; subst.
  rewrite IH by assumption. now apply react_get.
Qed.

(** X9.  Nothing is ever removed: whatever requests and callbacks follow,
    a key of [activeConnections] stays in it and the subscriptions made
    stay made. *)
Theorem cache_never_evicts (events : list Event) (server : Server)
    (key : string) :
  map_has key (activeConnections server) = true ->
  map_has key (activeConnections (fold_left (react parseFloat typeErrorMessage) events server)) = true
  /\ exists more,
       subscriptions (fold_left (react parseFloat typeErrorMessage) events server)
       = subscriptions server ++ more.
Proof.
  revert server. induction events as [|e events IH]; intros server H; simpl.
  - split; [exact H|]. exists []. now rewrite app_nil_r.
  - destruct (IH (react parseFloat typeErrorMessage server e) (react_has server e key H))
      as (H1 & more & H2).
    split; [exact H1|].
    destruct (react_subscriptions server e) as (more' & E).
    exists (more' ++ more). now rewrite H2, E, app_assoc.
Qed.

(** X10.  While no tick has arrived for a symbol, [getRealTimePrice]
    answers as [getPrice] does and opens one more ticker socket at every
    request, whether the provider answers or fails; it never stores a price
    itself. *)
Theorem price_requests_before_first_tick (symbol : string)
    (server : Server) (outcomes : list (Outcome (StringMap string))) :
  map_has symbol (activeConnections server) = false ->
  (forall awaited,
     fst (getRealTimePrice symbol awaited server) = getPrice symbol awaited)
  /\ activeConnections
       (fold_left (react parseFloat typeErrorMessage) (map (PriceRequested symbol) outcomes) server)
     = activeConnections server
  /\ subscriptions
       (fold_left (react parseFloat typeErrorMessage) (map (PriceRequested symbol) outcomes) server)
     = subscriptions server
       ++ repeat (TickerSubscription symbol) (List.length outcomes).
Proof.
  intros H. split.
  - intros awaited. unfold getRealTimePrice. rewrite H.
    now destruct awaited.
  - revert server H.
    induction outcomes as [|a outcomes IH]; intros server H; simpl.
    + split; [reflexivity|now rewrite app_nil_r].
    + assert (E : snd (getRealTimePrice symbol a server)
                  = {| activeConnections := activeConnections server;
                       subscriptions :=
                         subscriptions server
                         ++ [TickerSubscription symbol] |}).
      { unfold getRealTimePrice. rewrite H. now destruct a. }
      rewrite E.
      destruct (IH (mkServer (activeConnections server)
                      (subscriptions server ++ [TickerSubscription symbol]))
                  H) as (H1 & H2).
      simpl in H1, H2.
      split; [exact H1|]. rewrite H2, <- app_assoc. reflexivity.
Qed.

(** X11.  Once a tick has arrived for a symbol, and whatever happens next
    to other keys, [getRealTimePrice] answers the parsed closing price of
    the tick with status 200, opens no socket and does not depend on the
    provider: the request cannot fail any more. *)
Theorem price_after_tick (symbol close : string) (server : Server)
    (events : list Event) (awaited : Outcome (StringMap string)) :
  Forall (fun e => written e <> Some symbol) events ->
  let server' :=
    fold_left (react parseFloat typeErrorMessage) events (onTicker parseFloat symbol close server) in
  getRealTimePrice symbol awaited server'
  = ({| answer_status := 200%Z;
        answer_body := ReplyPrice (Some (JsNumber (parseFloat close))) |},
     server').
Proof.
  intros H server'.
  assert (G : map_get symbol (activeConnections server')
              = Some (JsNumber (parseFloat close))).
  { unfold server'. rewrite run_get by assumption.
    unfold onTicker. simpl activeConnections. apply map_get_set_same. }
  unfold getRealTimePrice, map_has. now rewrite G.
Qed.

(** X12.  [getRealTimeCandlesticks] caches what it fetched, and only that.
    After a fetch that succeeded, and whatever happens next to other keys,
    a request is answered from the cache with the candles of the fetch, an
    empty array included: the handler has no "no data" guard, where
    [getCandlesticks] answers 500.  After a fetch that failed (a rejection,
    or [null] for the candles) the state is as before and the status is
    500; the body is the message of what was thrown and nothing else when
    it has one, the empty object when it has none, and nothing is sent when
    [null] or [undefined] was thrown. *)
Theorem candles_cached_after_success (symbol interval : string)
    (server : Server) :
  (forall rows events,
     Forall (fun e => written e <> Some (cacheKey symbol interval)) events ->
     fst (getRealTimeCandlesticks_resume parseFloat typeErrorMessage
            symbol interval (Return (Some rows)) server)
     = {| answer_status := 200%Z;
          answer_body :=
            ReplyValue (Some (JsCandles (formatCandles parseFloat rows))) |}
     /\ getRealTimeCandlesticks_begin symbol interval
          (fold_left (react parseFloat typeErrorMessage) events
             (snd (getRealTimeCandlesticks_resume parseFloat typeErrorMessage
                     symbol interval (Return (Some rows)) server)))
        = Answered
            {| answer_status := 200%Z;
               answer_body :=
                 ReplyValue
                   (Some (JsCandles (formatCandles parseFloat rows))) |})
  /\ answer_body
       (fst (getRealTimeCandlesticks_resume parseFloat typeErrorMessage
               symbol interval (Return (Some [])) server))
     = ReplyValue (Some (JsCandles []))
  /\ status (getCandlesticks parseFloat (Return (Some []))) = 500%Z
  /\ (forall message,
        getRealTimeCandlesticks_resume parseFloat typeErrorMessage
          symbol interval (Throw message) server
        = ({| answer_status := 500%Z;
              answer_body := ReplyError (Some message) |}, server))
  /\ getRealTimeCandlesticks_resume parseFloat typeErrorMessage
       symbol interval ThrowWithoutMessage server
     = ({| answer_status := 500%Z; answer_body := ReplyError None |}, server)
  /\ getRealTimeCandlesticks_resume parseFloat typeErrorMessage
       symbol interval ThrowNullish server
     = ({| answer_status := 500%Z; answer_body := ReplyNotSent |}, server)
  /\ getRealTimeCandlesticks_resume parseFloat typeErrorMessage
       symbol interval (Return None) server
     = ({| answer_status := 500%Z;
           answer_body := ReplyError (Some typeErrorMessage) |}, server)
  /\ (forall awaited,
        (forall rows, awaited <> Return (Some rows)) ->
        answer_status
          (fst (getRealTimeCandlesticks_resume parseFloat typeErrorMessage
                  symbol interval awaited server)) = 500%Z
        /\ snd (getRealTimeCandlesticks_resume parseFloat typeErrorMessage
                  symbol interval awaited server) = server).
Proof.
  split; [|repeat split; try reflexivity].
  - intros rows events H. split; [reflexivity|].
    unfold getRealTimeCandlesticks_begin, map_has.
    rewrite run_get by assumption. simpl.
    now rewrite String.eqb_refl.
  - destruct awaited as [[rows|]|m| |]; try reflexivity.
    now destruct (H rows).
  - destruct awaited as [[rows|]|m| |]; try reflexivity.
    now destruct (H rows).
Qed.

(** X13.  The second part of [getRealTimeCandlesticks] does not look at
    the cache again: every fetch that succeeds opens one more chart socket
    and overwrites the cached candles, so requests that overlap leave as
    many sockets as there were requests and the candles of the last
    fetch. *)
Theorem overlapping_candle_requests (symbol interval : string)
    (server : Server) (fetched : list (list Row)) (last_rows : list Row) :
  let server' :=
    fold_left (react parseFloat typeErrorMessage)
      (map (fun rows => CandlesFetched symbol interval (Return (Some rows)))
         (fetched ++ [last_rows]))
      server in
  subscriptions server'
  = subscriptions server
    ++ repeat (ChartSubscription symbol interval) (S (List.length fetched))
  /\ map_get (cacheKey symbol interval) (activeConnections server')
     = Some (JsCandles (formatCandles parseFloat last_rows)).
Proof.
  assert (S : forall fetched server,
             subscriptions
               (fold_left (react parseFloat typeErrorMessage)
                  (map (fun rows =>
                          CandlesFetched symbol interval (Return (Some rows)))
                     fetched)
                  server)
             = subscriptions server
               ++ repeat (ChartSubscription symbol interval)
                    (List.length fetched)).
  { intros l. induction l as [|rows l IH]; intros sv; simpl;
      [now rewrite app_nil_r|].
    rewrite IH. simpl. now rewrite <- app_assoc. }
  simpl. rewrite map_app, fold_left_app. simpl. split.
  - rewrite S, <- app_assoc. f_equal. symmetry.
    apply (repeat_cons (List.length fetched)).
  - now rewrite String.eqb_refl.
Qed.

(** X14.  The two real-time handlers share one map.  A candle array cached
    for a symbol and an interval is what [getRealTimePrice] answers as the
    price of the symbol spelled like the cache key; a tick for such a
    symbol is what [getRealTimeCandlesticks] answers as the candles; and
    two pairs whose keys coincide share their candles. *)
Theorem real_time_handlers_share_keys (symbol interval : string)
    (server : Server) :
  (forall rows awaited,
     let server' :=
       snd (getRealTimeCandlesticks_resume parseFloat
          typeErrorMessage symbol interval (Return (Some rows)) server) in
     getRealTimePrice (cacheKey symbol interval) awaited server'
     = ({| answer_status := 200%Z;
           answer_body :=
             ReplyPrice (Some (JsCandles (formatCandles parseFloat rows))) |},
        server'))
  /\ (forall close,
        getRealTimeCandlesticks_begin symbol interval
          (onTicker parseFloat (cacheKey symbol interval) close server)
        = Answered
            {| answer_status := 200%Z;
               answer_body :=
                 ReplyValue (Some (JsNumber (parseFloat close))) |})
  /\ (forall rows interval',
        getRealTimeCandlesticks_begin symbol
          (interval ++ "_" ++ interval')%string
          (snd (getRealTimeCandlesticks_resume parseFloat typeErrorMessage
                  (symbol ++ "_" ++ interval)%string interval'
                  (Return (Some rows)) server))
        = Answered
            {| answer_status := 200%Z;
               answer_body :=
                 ReplyValue
                   (Some (JsCandles (formatCandles parseFloat rows))) |}).
Proof.
  split; [|split].
  - intros rows awaited. simpl.
    unfold getRealTimePrice, map_has. simpl.
    now rewrite String.eqb_refl.
  - intros close. unfold getRealTimeCandlesticks_begin, map_has. simpl.
    now rewrite String.eqb_refl.
  - intros rows interval'.
    unfold getRealTimeCandlesticks_begin, getRealTimeCandlesticks_resume.
    rewrite cacheKey_shift. unfold map_has. simpl.
    now rewrite String.eqb_refl.
Qed.

(** X15.  A chart update caches the candles parsed as they are, without
    the outlier pass: the next request is answered with exactly what the
    controller's [getCandlesticks] answers for the same candles. *)
Theorem chart_update_is_unsanitized (symbol interval : string)
    (chart : list RawCandle) (server : Server) :
  getRealTimeCandlesticks_begin symbol interval
    (onChart parseFloat symbol interval chart server)
  = Answered
      {| answer_status := 200%Z;
         answer_body :=
           ReplyValue
             (Some (JsCandles (map (controller_format parseFloat) chart))) |}
  /\ (chart <> [] ->
      body (controller_getCandlesticks parseFloat (Return (Some chart)))
      = JsonCandles (map (controller_format parseFloat) chart)).
Proof.
  split.
  - unfold getRealTimeCandlesticks_begin, map_has, onChart. simpl.
    rewrite String.eqb_refl. unfold formatCandles. rewrite map_map.
    reflexivity.
  - intros H. destruct chart as [|c cs]; [contradiction|reflexivity].
Qed.

(** The answer of the outlier pass and the plain parse, side by side. *)
Lemma sanitize_beside_plain (formatted : list Formatted) :
  List.length (sanitize formatted) = List.length formatted
  /\ map time (sanitize formatted) = map time (map candle formatted)
  /\ map volume (sanitize formatted) = map volume (map candle formatted)
  /\ (Forall (fun c => flagged formatted c = false) formatted ->
      sanitize formatted = map candle formatted).
Proof.
  assert (P : forall i c, nth_error formatted i = Some c ->
            exists o, nth_error (sanitize formatted) i = Some o
              /\ time o = time (candle c) /\ volume o = volume (candle c)
              /\ (flagged formatted c = false -> o = candle c)).
  { intros i c H. rewrite (sanitize_nth formatted i c H).
    eexists. split; [reflexivity|]. unfold candleToAdd, flagged.
    destruct (previousValidCandle (stateAfter formatted i));
      [|repeat split].
    destruct (isOutlier (detectOutliers formatted) c);
      repeat split; discriminate. }
  assert (Q : forall (A : Type) (f : Candle -> A),
             (forall i c, nth_error formatted i = Some c ->
                exists o, nth_error (sanitize formatted) i = Some o
                          /\ f o = f (candle c)) ->
             map f (sanitize formatted) = map f (map candle formatted)).
  { intros A f Hf. apply nth_error_ext. intros i.
    rewrite !nth_error_map.
    destruct (nth_error formatted i) as [c|] eqn:E.
    - destruct (Hf i c E) as (o & Ho & Hfo). rewrite Ho. simpl.
      now rewrite Hfo.
    - apply nth_error_None in E.
      assert (E' : nth_error (sanitize formatted) i = None)
        by (apply nth_error_None; rewrite sanitize_length; exact E).
      now rewrite E'. }
  split; [apply sanitize_length|]. split; [|split].
  - apply Q. intros i c H. destruct (P i c H) as (o & Ho & Ht & _).
    now exists o.
  - apply Q. intros i c H. destruct (P i c H) as (o & Ho & _ & Hv & _).
    now exists o.
  - intros F. rewrite <- (map_id (sanitize formatted)).
    rewrite <- (map_id (map candle formatted)).
    apply Q. intros i c H. destruct (P i c H) as (o & Ho & _ & _ & Hc).
    exists o. split; [exact Ho|]. apply Hc.
    rewrite Forall_forall in F. apply F. eapply nth_error_In, H.
Qed.

(** X6.  The server's [getCandlesticks] and the controller's differ by the
    outlier pass alone: they answer with the same status, with the same
    body when they fail, and otherwise with as many candles, of the same
    times and volumes, and with the same candles when none is flagged. *)
Theorem server_and_controller_candles
    (awaited : Outcome (option (list RawCandle))) :
  status (getCandlesticks parseFloat awaited)
  = status (controller_getCandlesticks parseFloat awaited)
  /\ (status (getCandlesticks parseFloat awaited) = 500%Z ->
      getCandlesticks parseFloat awaited
      = controller_getCandlesticks parseFloat awaited)
  /\ (forall candles, awaited = Return (Some candles) -> candles <> [] ->
      exists cleaned,
        body (getCandlesticks parseFloat awaited) = JsonCandles cleaned
        /\ body (controller_getCandlesticks parseFloat awaited)
           = JsonCandles (map (controller_format parseFloat) candles)
        /\ List.length cleaned = List.length candles
        /\ map time cleaned
           = map time (map (controller_format parseFloat) candles)
        /\ map volume cleaned
           = map volume (map (controller_format parseFloat) candles)
        /\ (Forall (fun c => flagged (map (format parseFloat) candles) c
                             = false)
              (map (format parseFloat) candles) ->
            cleaned = map (controller_format parseFloat) candles)).
Proof.
  assert (F : forall candles,
             map (controller_format parseFloat) candles
             = map candle (map (format parseFloat) candles))
    by (intros candles; now rewrite map_map).
  split; [|split].
  - destruct awaited as [[[|c cs]|]|m| |]; reflexivity.
  - destruct awaited as [[[|c cs]|]|m| |]; try reflexivity. discriminate.
  - intros candles -> H. destruct candles as [|c cs]; [contradiction|].
    destruct (sanitize_beside_plain (map (format parseFloat) (c :: cs)))
      as (Hl & Ht & Hv & Hc).
    exists (sanitize (map (format parseFloat) (c :: cs))).
    split; [reflexivity|]. split; [reflexivity|].
    rewrite F. rewrite length_map in Hl.
    split; [exact Hl|]. split; [exact Ht|]. split; [exact Hv|exact Hc].
Qed.

(** X16.  A candle answer of [getCandlesticks] is never empty: it comes
    with status 200 from a provider response that held at least one candle,
    and has one candle for each of them. *)
Theorem getCandlesticks_answer_not_empty
    (awaited : Outcome (option (list RawCandle)))
    (finalCandles : list Candle) :
  body (getCandlesticks parseFloat awaited) = JsonCandles finalCandles ->
  finalCandles <> []
  /\ status (getCandlesticks parseFloat awaited) = 200%Z
  /\ exists candles,
       awaited = Return (Some candles)
       /\ List.length finalCandles = List.length candles.
Proof.
  destruct awaited as [[[|c cs]|]|m| |]; try discriminate.
  intros H. injection H as <-.
  assert (L : List.length (sanitize (map (format parseFloat) (c :: cs)))
              = S (List.length cs))
    by (now rewrite sanitize_length, length_map).
  split; [|split; [reflexivity|]].
  - intros E. change (sanitize (map (format parseFloat) (c :: cs)) = [])
      in E. rewrite E in L. discriminate L.
  - exists (c :: cs). split; [reflexivity|exact L].
Qed.

End HandlerFacts.

(** * The other properties on the samples *)

Lemma correction_source_on_spike_run :
  flagged spike_run_window (bar 4000 6000 6001 5999 6000 40) = true
  /\ previousValidCandle (stateAfter spike_run_window 3)
     = Some (bar 2000 101 102 100 101 20)
  /\ exists o,
       nth_error (sanitize spike_run_window) 3 = Some o
       /\ time o = ValidDate 4000 /\ volume o = 40%float
       /\ open o = 101%float /\ high o = 102%float
       /\ low o = 100%float /\ close o = 101%float.
Proof.
  assert (F : flagged spike_run_window (bar 4000 6000 6001 5999 6000 40)
              = true) by (vm_compute; reflexivity).
  destruct (@correction_source Binary64 spike_run_window 1 3
              (bar 2000 101 102 100 101 20)
              (bar 4000 6000 6001 5999 6000 40))
    as (P & o & Ho & Ht & Hv & Hf & _).
  - lia.
  - reflexivity.
  - reflexivity.
  - right. vm_compute. reflexivity.
  - intros m cm H1 H2 Hn. assert (m = 2) by lia. subst m.
    injection Hn as <-. vm_compute. reflexivity.
  - split; [exact F|]. split; [exact P|].
    exists o. split; [exact Ho|]. split; [exact Ht|]. split; [exact Hv|].
    exact (Hf F).
Defined.

Lemma answer_within_band_on_spike :
  isOutlier (detectOutliers spike_window)
    {| candle := candle (bar 5000 102 103 101 102 50); original := false |}
  = false.
Proof.
  apply (@answer_within_band Binary64 spike_window
           (bar 1000 100 101 99 100 10) eq_refl) with (i := 4);
    vm_compute; reflexivity.
Defined.

Lemma flagged_repeats_previous_answer_on_spike_run :
  exists o_prev o_cur,
    nth_error (sanitize spike_run_window) 2 = Some o_prev
    /\ nth_error (sanitize spike_run_window) 3 = Some o_cur
    /\ open o_cur = open o_prev /\ high o_cur = high o_prev
    /\ low o_cur = low o_prev /\ close o_cur = close o_prev
    /\ time o_cur = ValidDate 4000 /\ volume o_cur = 40%float.
Proof.
  apply (@flagged_repeats_previous_answer Binary64 spike_run_window 2
           (bar 4000 6000 6001 5999 6000 40)); vm_compute; reflexivity.
Defined.

Lemma median_order_independent_on_spike :
  exists s s' : @Stats Binary64,
    detectOutliers spike_window = Some s
    /\ detectOutliers (rev spike_window) = Some s'
    /\ PrimFloat.ltb (median s) (median s') = false
    /\ PrimFloat.ltb (median s') (median s) = false.
Proof.
  destruct (detectOutliers spike_window) as [s|] eqn:E;
    [|vm_compute in E; discriminate E].
  destruct (detectOutliers (rev spike_window)) as [s'|] eqn:E';
    [|vm_compute in E'; discriminate E'].
  exists s, s'. split; [reflexivity|]. split; [reflexivity|].
  apply (@median_order_independent Binary64 Binary64_order
           spike_window (rev spike_window) s s').
  - apply Permutation_rev.
  - repeat (constructor; [reflexivity|]). constructor.
  - exact E.
  - exact E'.
Defined.

Open Scope string_scope.

Lemma cacheKey_injective_on_symbols :
  "BTCUSDT"%string = "BTCUSDT"%string /\ "1m"%string = "1m"%string.
Proof.
  apply (cacheKey_injective "BTCUSDT" "BTCUSDT" "1m" "1m"); reflexivity.
Defined.

Lemma cache_never_evicts_on_sample :
  map_has "BTCUSDT"
    (activeConnections
       (fold_left (@react Binary64 sample_parseFloat "null has no map") sample_events
          sample_server)) = true
  /\ exists more,
       subscriptions
         (fold_left (@react Binary64 sample_parseFloat "null has no map") sample_events
            sample_server)
       = (subscriptions sample_server ++ more)%list.
Proof.
  apply (@cache_never_evicts Binary64 sample_parseFloat "null has no map"
           sample_events sample_server "BTCUSDT").
  reflexivity.
Defined.

Lemma price_requests_before_first_tick_on_empty :
  (forall awaited,
     fst (@getRealTimePrice Binary64 "BTCUSDT" awaited empty_server)
     = @getPrice Binary64 "BTCUSDT" awaited)
  /\ activeConnections
       (fold_left (@react Binary64 sample_parseFloat "null has no map")
          (map (PriceRequested "BTCUSDT")
             [Throw "timeout"; Return [("BTCUSDT", "100")]])
          empty_server)
     = activeConnections empty_server
  /\ subscriptions
       (fold_left (@react Binary64 sample_parseFloat "null has no map")
          (map (PriceRequested "BTCUSDT")
             [Throw "timeout"; Return [("BTCUSDT", "100")]])
          empty_server)
     = (subscriptions empty_server
        ++ repeat (TickerSubscription "BTCUSDT") 2)%list.
Proof.
  apply (@price_requests_before_first_tick Binary64 sample_parseFloat
           "null has no map" "BTCUSDT" empty_server
           [Throw "timeout"; Return [("BTCUSDT", "100")]]%string).
  reflexivity.
Defined.

Lemma price_after_tick_on_sample :
  @getRealTimePrice Binary64 "BTCUSDT" (Throw "timeout")
    (fold_left (@react Binary64 sample_parseFloat "null has no map")
       [CandlesFetched "BTCUSDT" "1m" (Return (Some sample_rows))]
       (@onTicker Binary64 sample_parseFloat "BTCUSDT" "99" empty_server))
  = ({| answer_status := 200%Z;
        answer_body :=
          ReplyPrice (Some (@JsNumber Binary64 (sample_parseFloat "99"))) |},
     fold_left (@react Binary64 sample_parseFloat "null has no map")
       [CandlesFetched "BTCUSDT" "1m" (Return (Some sample_rows))]
       (@onTicker Binary64 sample_parseFloat "BTCUSDT" "99" empty_server)).
Proof.
  apply (@price_after_tick Binary64 sample_parseFloat "null has no map"
           "BTCUSDT" "99" empty_server
           [CandlesFetched "BTCUSDT" "1m" (Return (Some sample_rows))]
           (Throw "timeout")).
  constructor; [|constructor].
  intros E. vm_compute in E. discriminate E.
Defined.

Lemma getCandlesticks_answer_not_empty_on_sample :
  sanitize (map (@format Binary64 sample_parseFloat) sample_chart) <> []
  /\ status (@getCandlesticks Binary64 sample_parseFloat
               (Return (Some sample_chart))) = 200%Z
  /\ exists candles,
       Return (Some sample_chart) = Return (Some candles)
       /\ List.length (sanitize (map (@format Binary64 sample_parseFloat) sample_chart))
          = List.length candles.
Proof.
  apply (@getCandlesticks_answer_not_empty Binary64 sample_parseFloat
           (Return (Some sample_chart))).
  reflexivity.
Defined.

Close Scope string_scope.
